(** * SHOT: term algebra, expression tree and solution-strategy assembly

    A shallow embedding of the model layer ([Terms.h], [NonlinearExpressions.h])
    and of the two solution strategies ([SolutionStrategySingleTree.cpp],
    [SolutionStrategyNLP.cpp]) of the Supporting Hyperplane Optimization
    Toolkit.

    - a C++ [double] is a binary64 float, Rocq's primitive [float];
    - a [std::shared_ptr] is the address of the object it shares, so that
      pointer comparison is comparison of addresses;
    - a [std::map<VariablePtr, double>] is a [gmap] keyed by the address;
    - a method that mutates [this] takes the object and returns the new one;
    - what reaches outside the program (the eigenvalue solver, [std::cout],
      the settings provider, the interval library) is a parameter. *)

From Stdlib Require Import ZArith Floats Uint63.
From stdpp Require Import base option list strings gmap.

Set Warnings "-register-all".
Set Warnings "-clear-no-such-hyp".

Local Open Scope string_scope.
Local Open Scope list_scope.

(** ** Doubles *)

Module Double.

Definition double := float.

Definition zero : double := 0%float.
Definition one : double := 1%float.
Definition two : double := 2%float.
Definition half : double := 0.5%float.

(** [a > b], [a < b], [a >= b], [a <= b], [a == b], [a != b] on doubles. *)
Definition gt (a b : double) : bool := PrimFloat.ltb b a.
Definition lt (a b : double) : bool := PrimFloat.ltb a b.
Definition ge (a b : double) : bool := PrimFloat.leb b a.
Definition le (a b : double) : bool := PrimFloat.leb a b.
Definition eq (a b : double) : bool := PrimFloat.eqb a b.
Definition ne (a b : double) : bool := negb (PrimFloat.eqb a b).

(** The conversion of an [int] to a [double]. *)
Definition of_int (z : Z) : double :=
  if (z <? 0)%Z
  then PrimFloat.opp (PrimFloat.of_uint63 (Uint63.of_Z (- z)))
  else PrimFloat.of_uint63 (Uint63.of_Z z).

(** The conversion of a [double] to [bool]: everything but zero is true. *)
Definition to_bool (a : double) : bool := ne a zero.

(** The conversion of a [bool] to a [double]. *)
Definition of_bool (b : bool) : double := if b then one else zero.

End Double.

Abbreviation double := Double.double.

(** ** Enumerations of the model *)

Inductive E_Convexity :=
| Convexity_Linear
| Convexity_Convex
| Convexity_Concave
| Convexity_Nonconvex
| Convexity_Unknown
| Convexity_NotSet.

Inductive E_Monotonicity :=
| Monotonicity_Nondecreasing
| Monotonicity_Nonincreasing
| Monotonicity_Constant
| Monotonicity_Unknown
| Monotonicity_NotSet.

(** Modelled from the spec: the variable types of [Enums.h], as the data model
    lists them. *)
Inductive E_VariableType :=
| VariableType_Continuous
| VariableType_Binary
| VariableType_Integer
| VariableType_SemiContinuous
| VariableType_SemiInteger.

#[global] Instance E_Convexity_eq_dec : EqDecision E_Convexity.
Proof. solve_decision. Defined.

#[global] Instance E_Monotonicity_eq_dec : EqDecision E_Monotonicity.
Proof. solve_decision. Defined.

#[global] Instance E_VariableType_eq_dec : EqDecision E_VariableType.
Proof. solve_decision. Defined.

(** ** Variables *)

(** A [VariablePtr]: the address of the shared [Variable] object together with
    the fields of the object that the model layer reads. Two pointers are
    equal when they hold the same address. *)
Record Variable_t := mkVariable {
  address : nat;
  index : nat;
  name : string;
  type : E_VariableType
}.

Definition VariablePtr := Variable_t.

Definition ptr_eqb (a b : VariablePtr) : bool := Nat.eqb (address a) (address b).

Definition VectorDouble := list double.

(** Modelled from the spec: [Variable::calculate(point)], of [Variables.h],
    which is the "point-evaluation accessor returning its value under a given
    coordinate vector": the coordinate of the point at the variable's index.
    Reading past the end of the vector is undefined in the source; here it
    yields zero. *)
Definition Variable_calculate (v : VariablePtr) (point : VectorDouble) : double :=
  nth (index v) point Double.zero.

(** [SparseVariableVector], a [std::map<VariablePtr, double>]. *)
Abbreviation SparseVariableVector := (gmap nat double).

(** [std::map::insert]: the pair is stored only when the key is free; the
    result is the map, the key of the element found or stored (the iterator)
    and whether the pair was stored. *)
Definition map_insert (m : SparseVariableVector) (k : VariablePtr) (v : double)
  : SparseVariableVector * (nat * bool) :=
  match m !! address k with
  | Some _ => (m, (address k, false))
  | None => (<[address k := v]> m, (address k, true))
  end.

(** [it->second += v] through the iterator of an element of the map. *)
Definition map_add_at (m : SparseVariableVector) (it : nat) (v : double)
  : SparseVariableVector :=
  alter (fun old => PrimFloat.add old v) it m.

(** ** Terms *)

(** The abstract class [Term]: what every kind of term offers. *)
Class Term (T : Type) := {
  coefficient : T -> double;
  calculate : T -> VectorDouble -> double;
  getConvexity : T -> E_Convexity;
  getMonotonicity : T -> E_Monotonicity
}.

(** *** LinearTerm *)

Record LinearTerm := mkLinearTerm {
  lt_coefficient : double;
  lt_variable : VariablePtr
}.

Definition LinearTerm_calculate (t : LinearTerm) (point : VectorDouble) : double :=
  PrimFloat.mul (lt_coefficient t) (Variable_calculate (lt_variable t) point).

Definition LinearTerm_getConvexity (t : LinearTerm) : E_Convexity := Convexity_Linear.

Definition LinearTerm_getMonotonicity (t : LinearTerm) : E_Monotonicity :=
  if Double.gt (lt_coefficient t) Double.zero then Monotonicity_Nondecreasing
  else if Double.lt (lt_coefficient t) Double.zero then Monotonicity_Nonincreasing
  else Monotonicity_Constant.

#[global] Instance LinearTerm_Term : Term LinearTerm := {|
  coefficient := lt_coefficient;
  calculate := LinearTerm_calculate;
  getConvexity := LinearTerm_getConvexity;
  getMonotonicity := LinearTerm_getMonotonicity
|}.

(** ** What lies outside the program *)

(** The functions of [<math.h>] that the model layer calls. *)
Class LibM := {
  pow : double -> double -> double;
  log : double -> double;
  exp : double -> double;
  sin : double -> double;
  cos : double -> double;
  tan : double -> double;
  asin : double -> double;
  acos : double -> double;
  atan : double -> double
}.

(** An [Eigen::Triplet<double>]: an entry of a sparse matrix. *)
Record Triplet := mkTriplet {
  row : nat;
  col : nat;
  value : double
}.

(** What the model layer does to the world around it: it hands a sparse matrix
    (its dimension and its entries) to Eigen's self-adjoint eigenvalue solver,
    and it prints a matrix on [std::cout]. A [World] lists these events, the
    oldest first. *)
Inductive Event :=
| EigenDecomposition (n : nat) (elements : list Triplet)
| PrintMatrix (n : nat) (elements : list Triplet).

Definition World := list Event.

(** [Eigen::SelfAdjointEigenSolver] with [EigenvaluesOnly]: [None] when
    [info()] is not [Success], the eigenvalues otherwise. *)
Definition EigenSolver := nat -> list Triplet -> option (list double).

(** ** Term collections *)

(** The class template [Terms<T>]: the vector it derives from and the two
    cached properties. *)
Record Terms (T : Type) := mkTerms {
  items : list T;
  convexity : E_Convexity;
  monotonicity : E_Monotonicity
}.

Arguments mkTerms {T} _ _ _.
Arguments items {T} _.
Arguments convexity {T} _.
Arguments monotonicity {T} _.

(** [Terms(){}], with the default member initialisers. *)
Definition Terms_new {T : Type} : Terms T :=
  mkTerms [] Convexity_NotSet Monotonicity_NotSet.

Definition set_items {T} (l : list T) (s : Terms T) : Terms T :=
  mkTerms l (convexity s) (monotonicity s).

Definition set_convexity {T} (c : E_Convexity) (s : Terms T) : Terms T :=
  mkTerms (items s) c (monotonicity s).

Definition set_monotonicity {T} (m : E_Monotonicity) (s : Terms T) : Terms T :=
  mkTerms (items s) (convexity s) m.

(** [push_back] of the underlying vector. *)
Definition push_back {T} (t : T) (s : Terms T) : Terms T :=
  set_items (items s ++ [t]) s.

Section TermsTemplate.

Context {T : Type} `{Term T}.

(** The pure virtual [updateConvexity]: each collection overrides it. It may
    reach the world. *)
Variable updateConvexity : Terms T -> World -> Terms T * World.

(** One round of the loop of [updateMonotonicity]. *)
Definition monotonicity_step (acc : bool * bool) (TERM : T) : bool * bool :=
  let '(areAllNonincreasing, areAllNondecreasing) := acc in
  let monotonicity := getMonotonicity TERM in
  (areAllNonincreasing
     && (bool_decide (monotonicity = Monotonicity_Nonincreasing)
         || bool_decide (monotonicity = Monotonicity_Constant)),
   areAllNondecreasing
     && (bool_decide (monotonicity = Monotonicity_Nondecreasing)
         || bool_decide (monotonicity = Monotonicity_Constant))).

Definition Terms_updateMonotonicity (s : Terms T) : Terms T :=
  let '(areAllNonincreasing, areAllNondecreasing) :=
    fold_left monotonicity_step (items s) (true, true) in
  if areAllNonincreasing then set_monotonicity Monotonicity_Nonincreasing s
  else if areAllNondecreasing then set_monotonicity Monotonicity_Nondecreasing s
  else set_monotonicity Monotonicity_Unknown s.

Definition Terms_calculate (s : Terms T) (point : VectorDouble) : double :=
  fold_left (fun value TERM => PrimFloat.add value (calculate TERM point))
    (items s) Double.zero.

(** [getConvexity]: the value returned, the collection and the world after
    the call. *)
Definition Terms_getConvexity (s : Terms T) (w : World)
  : E_Convexity * (Terms T * World) :=
  let '(s', w') :=
    if bool_decide (convexity s = Convexity_NotSet)
    then updateConvexity s w
    else (s, w) in
  (convexity s', (s', w')).

Definition Terms_getMonotonicity (s : Terms T) (w : World)
  : E_Monotonicity * (Terms T * World) :=
  let s' :=
    if bool_decide (monotonicity s = Monotonicity_NotSet)
    then Terms_updateMonotonicity s
    else s in
  (monotonicity s', (s', w)).

End TermsTemplate.

(** *** LinearTerms *)

Definition LinearTerms := Terms LinearTerm.

Definition LinearTerms_updateConvexity (s : LinearTerms) (w : World)
  : LinearTerms * World :=
  (set_convexity Convexity_Linear s, w).

Definition LinearTerms_getConvexity := Terms_getConvexity LinearTerms_updateConvexity.
Definition LinearTerms_getMonotonicity := @Terms_getMonotonicity LinearTerm _.

(** [add(LinearTermPtr term)] *)
Definition LinearTerms_add (term : LinearTerm) (s : LinearTerms) : LinearTerms :=
  set_monotonicity Monotonicity_NotSet (push_back term s).

(** [add(LinearTerms terms)] *)
Definition LinearTerms_add_all (terms : LinearTerms) (s : LinearTerms) : LinearTerms :=
  let s' := fold_left (fun acc TERM => push_back TERM acc) (items terms) s in
  if (0 <? length (items terms))%nat
  then set_monotonicity Monotonicity_NotSet s'
  else s'.

(** One round of the loop of [LinearTerms::calculateGradient]. The result of
    [insert] is the local pair [element]; when the variable already has an
    entry, the statement [element.second += T->coefficient] adds to the
    [bool] of that pair, which is dropped at the end of the round: the map
    is left as [insert] left it. *)
Definition LinearTerms_gradient_step (gradient : SparseVariableVector) (T : LinearTerm)
  : SparseVariableVector :=
  if Double.eq (lt_coefficient T) Double.zero then gradient
  else
    let '(gradient, element) := map_insert gradient (lt_variable T) (lt_coefficient T) in
    if negb (snd element)
    then
      let element : nat * bool :=
        (fst element,
         Double.to_bool (PrimFloat.add (Double.of_bool (snd element)) (lt_coefficient T))) in
      gradient
    else gradient.

Definition LinearTerms_calculateGradient (s : LinearTerms) (point : VectorDouble)
  : SparseVariableVector :=
  fold_left LinearTerms_gradient_step (items s) ∅.

(** *** QuadraticTerm *)

Record QuadraticTerm := mkQuadraticTerm {
  qt_coefficient : double;
  firstVariable : VariablePtr;
  secondVariable : VariablePtr;
  qt_isBilinear : bool;
  qt_isSquare : bool;
  qt_isBinary : bool
}.

Definition QuadraticTerm_calculate (t : QuadraticTerm) (point : VectorDouble) : double :=
  PrimFloat.mul
    (PrimFloat.mul (qt_coefficient t) (Variable_calculate (firstVariable t) point))
    (Variable_calculate (secondVariable t) point).

Definition QuadraticTerm_getConvexity (t : QuadraticTerm) : E_Convexity :=
  if ptr_eqb (firstVariable t) (secondVariable t)
  then
    if Double.gt (qt_coefficient t) Double.zero then Convexity_Convex
    else if Double.lt (qt_coefficient t) Double.zero then Convexity_Concave
    else Convexity_Linear
  else Convexity_Nonconvex.

Definition QuadraticTerm_getMonotonicity (t : QuadraticTerm) : E_Monotonicity :=
  if Double.gt (qt_coefficient t) Double.zero then Monotonicity_Nondecreasing
  else if Double.lt (qt_coefficient t) Double.zero then Monotonicity_Nonincreasing
  else Monotonicity_Constant.

#[global] Instance QuadraticTerm_Term : Term QuadraticTerm := {|
  coefficient := qt_coefficient;
  calculate := QuadraticTerm_calculate;
  getConvexity := QuadraticTerm_getConvexity;
  getMonotonicity := QuadraticTerm_getMonotonicity
|}.

(** *** QuadraticTerms *)

Definition QuadraticTerms := Terms QuadraticTerm.

(** The locals of [QuadraticTerms::updateConvexity] that its first loop
    updates. [variableMap] is a [std::map<VariablePtr, bool>] whose values
    are all [true]: the set of its keys. *)
Record ConvexityScan := mkConvexityScan {
  elements : list Triplet;
  variableMap : gset nat;
  allSquares : bool;
  allPositive : bool;
  allNegative : bool
}.

Definition ConvexityScan_init : ConvexityScan :=
  mkConvexityScan [] ∅ true true true.

Definition convexity_scan_step (acc : ConvexityScan) (T : QuadraticTerm) : ConvexityScan :=
  if ptr_eqb (firstVariable T) (secondVariable T)
  then
    {| variableMap := variableMap acc ∪ {[ address (firstVariable T) ]};
       allPositive := allPositive acc && Double.ge (qt_coefficient T) Double.zero;
       allNegative := allNegative acc && Double.le (qt_coefficient T) Double.zero;
       elements := elements acc
         ++ [mkTriplet (index (firstVariable T)) (index (firstVariable T)) (qt_coefficient T)];
       allSquares := allSquares acc |}
  else
    {| variableMap :=
         variableMap acc ∪ {[ address (firstVariable T) ]} ∪ {[ address (secondVariable T) ]};
       allSquares := false;
       elements := elements acc
         ++ (if (index (secondVariable T) <? index (firstVariable T))%nat
             then [mkTriplet (index (firstVariable T)) (index (secondVariable T))
                     (PrimFloat.mul Double.half (qt_coefficient T))]
             else [mkTriplet (index (secondVariable T)) (index (firstVariable T))
                     (PrimFloat.mul Double.half (qt_coefficient T))]);
       allPositive := allPositive acc;
       allNegative := allNegative acc |}.

(** One round of the loop over the eigenvalues. The two flags keep the names
    the source gives them; the tests are strict. *)
Definition eigenvalue_step (eigenvalues : list double) (acc : bool * bool) (i : nat)
  : bool * bool :=
  let '(areAllPositiveOrZero, areAllNegativeOrZero) := acc in
  let eigenvalue := nth i eigenvalues Double.zero in
  (areAllPositiveOrZero && Double.gt eigenvalue Double.zero,
   areAllNegativeOrZero && Double.lt eigenvalue Double.zero).

Section Quadratic.

Variable eigenSolver : EigenSolver.

Definition QuadraticTerms_updateConvexity (s : QuadraticTerms) (w : World)
  : QuadraticTerms * World :=
  if (length (items s) =? 0)%nat
  then (set_convexity Convexity_Linear s, w)
  else
    let scan := fold_left convexity_scan_step (items s) ConvexityScan_init in
    if allSquares scan && allPositive scan
    then (set_convexity Convexity_Convex s, w)
    else if allSquares scan && allNegative scan
    then (set_convexity Convexity_Concave s, w)
    else
      let numberOfVariables := size (variableMap scan) in
      let w := w ++ [EigenDecomposition numberOfVariables (elements scan)] in
      let w := w ++ [PrintMatrix numberOfVariables (elements scan)] in
      match eigenSolver numberOfVariables (elements scan) with
      | None => (set_convexity Convexity_Unknown s, w)
      | Some eigenvalues =>
          let '(areAllPositiveOrZero, areAllNegativeOrZero) :=
            fold_left (eigenvalue_step eigenvalues) (seq 0 numberOfVariables)
              (true, true) in
          if areAllPositiveOrZero then (set_convexity Convexity_Convex s, w)
          else if areAllNegativeOrZero then (set_convexity Convexity_Concave s, w)
          else (set_convexity Convexity_Nonconvex s, w)
      end.

Definition QuadraticTerms_getConvexity :=
  Terms_getConvexity QuadraticTerms_updateConvexity.

End Quadratic.

Definition QuadraticTerms_getMonotonicity := @Terms_getMonotonicity QuadraticTerm _.

(** [add(QuadraticTermPtr term)] *)
Definition QuadraticTerms_add (term : QuadraticTerm) (s : QuadraticTerms) : QuadraticTerms :=
  set_monotonicity Monotonicity_NotSet
    (set_convexity Convexity_NotSet (push_back term s)).

(** [add(QuadraticTerms terms)] *)
Definition QuadraticTerms_add_all (terms : QuadraticTerms) (s : QuadraticTerms)
  : QuadraticTerms :=
  let s' := fold_left (fun acc TERM => push_back TERM acc) (items terms) s in
  if (0 <? length (items terms))%nat
  then set_monotonicity Monotonicity_NotSet (set_convexity Convexity_NotSet s')
  else s'.

(** [gradient.insert(...)] followed, when the variable already has an entry,
    by [element.first->second += value]. *)
Definition accumulate (gradient : SparseVariableVector) (v : VariablePtr) (value : double)
  : SparseVariableVector :=
  let '(gradient, element) := map_insert gradient v value in
  if negb (snd element) then map_add_at gradient (fst element) value else gradient.

Definition QuadraticTerms_gradient_step (point : VectorDouble)
    (gradient : SparseVariableVector) (T : QuadraticTerm) : SparseVariableVector :=
  if Double.eq (qt_coefficient T) Double.zero then gradient
  else if ptr_eqb (firstVariable T) (secondVariable T)
  then
    let value :=
      PrimFloat.mul (PrimFloat.mul Double.two (qt_coefficient T))
        (nth (index (firstVariable T)) point Double.zero) in
    accumulate gradient (firstVariable T) value
  else
    let value :=
      PrimFloat.mul (qt_coefficient T) (nth (index (secondVariable T)) point Double.zero) in
    let gradient := accumulate gradient (firstVariable T) value in
    let value :=
      PrimFloat.mul (qt_coefficient T) (nth (index (firstVariable T)) point Double.zero) in
    accumulate gradient (secondVariable T) value.

Definition QuadraticTerms_calculateGradient (s : QuadraticTerms) (point : VectorDouble)
  : SparseVariableVector :=
  fold_left (QuadraticTerms_gradient_step point) (items s) ∅.

(** *** MonomialTerm and MonomialTerms *)

Record MonomialTerm := mkMonomialTerm {
  mt_coefficient : double;
  mt_variables : list VariablePtr;
  mt_isBilinear : bool;
  mt_isSquare : bool;
  mt_isBinary : bool
}.

(** [MonomialTerm(double coeff, Variables vars)] *)
Definition MonomialTerm_new (coeff : double) (vars : list VariablePtr) : MonomialTerm :=
  mkMonomialTerm coeff vars false false
    (forallb (fun V => bool_decide (type V = VariableType_Binary)) vars).

Definition MonomialTerm_calculate (t : MonomialTerm) (point : VectorDouble) : double :=
  fold_left (fun value V => PrimFloat.mul value (Variable_calculate V point))
    (mt_variables t) (mt_coefficient t).

#[global] Instance MonomialTerm_Term : Term MonomialTerm := {|
  coefficient := mt_coefficient;
  calculate := MonomialTerm_calculate;
  getConvexity := fun _ => Convexity_Unknown;
  getMonotonicity := fun _ => Monotonicity_Unknown
|}.

Definition MonomialTerms := Terms MonomialTerm.

Definition MonomialTerms_updateConvexity (s : MonomialTerms) (w : World)
  : MonomialTerms * World :=
  (set_convexity Convexity_Nonconvex s, w).

Definition MonomialTerms_getConvexity := Terms_getConvexity MonomialTerms_updateConvexity.
Definition MonomialTerms_getMonotonicity := @Terms_getMonotonicity MonomialTerm _.

(** [add(MonomialTermPtr term)] *)
Definition MonomialTerms_add (term : MonomialTerm) (s : MonomialTerms) : MonomialTerms :=
  set_monotonicity Monotonicity_NotSet
    (set_convexity Convexity_NotSet (push_back term s)).

(** [add(MonomialTerms terms)] *)
Definition MonomialTerms_add_all (terms : MonomialTerms) (s : MonomialTerms)
  : MonomialTerms :=
  let s' := fold_left (fun acc TERM => push_back TERM acc) (items terms) s in
  if (0 <? length (items terms))%nat
  then set_monotonicity Monotonicity_NotSet (set_convexity Convexity_NotSet s')
  else s'.

(** *** SignomialElement, SignomialTerm and SignomialTerms *)

Record SignomialElement := mkSignomialElement {
  se_variable : VariablePtr;
  power : double
}.

Definition SignomialElements := list SignomialElement.

Record SignomialTerm := mkSignomialTerm {
  st_coefficient : double;
  st_elements : SignomialElements
}.

(** The loop that [getConvexity] and [getMonotonicity] share: the number of
    elements of positive power and the sum of the powers. *)
Definition power_scan_step (acc : nat * double) (E : SignomialElement) : nat * double :=
  let '(numberPositivePowers, sumPowers) := acc in
  ((if Double.gt (power E) Double.zero then S numberPositivePowers else numberPositivePowers),
   PrimFloat.add sumPowers (power E)).

Definition power_scan (elements : SignomialElements) : nat * double :=
  fold_left power_scan_step elements (0%nat, Double.zero).

(** [getConvexity]. The branch of a negative coefficient has no [return] of
    its own after its three tests: like a zero coefficient, it falls through
    to the [return E_Convexity::Nonconvex] that ends the function. *)
Definition SignomialTerm_getConvexity (t : SignomialTerm) : E_Convexity :=
  let '(numberPositivePowers, sumPowers) := power_scan (st_elements t) in
  let size := length (st_elements t) in
  if (size =? 1)%nat && Double.eq sumPowers Double.one then Convexity_Linear
  else if Double.gt (st_coefficient t) Double.zero
  then
    if (numberPositivePowers =? 1)%nat && Double.gt sumPowers Double.one
    then Convexity_Convex
    else if (size =? 1)%nat && Double.gt sumPowers Double.zero
              && Double.lt sumPowers Double.one
    then Convexity_Concave
    else if (numberPositivePowers =? 0)%nat then Convexity_Convex
    else Convexity_Nonconvex
  else if Double.lt (st_coefficient t) Double.zero
  then
    if (numberPositivePowers =? 1)%nat && Double.gt sumPowers Double.one
    then Convexity_Concave
    else if (size =? 1)%nat && Double.gt sumPowers Double.zero
              && Double.lt sumPowers Double.one
    then Convexity_Convex
    else if (numberPositivePowers =? 0)%nat then Convexity_Concave
    else Convexity_Nonconvex
  else Convexity_Nonconvex.

Definition SignomialTerm_getMonotonicity (t : SignomialTerm) : E_Monotonicity :=
  if Double.eq (st_coefficient t) Double.zero then Monotonicity_Constant
  else
    let '(numberPositivePowers, sumPowers) := power_scan (st_elements t) in
    let size := length (st_elements t) in
    if Double.gt (st_coefficient t) Double.zero
    then
      if (size =? 1)%nat && Double.eq sumPowers Double.zero then Monotonicity_Constant
      else if (size =? 1)%nat && Double.gt sumPowers Double.zero
      then Monotonicity_Nondecreasing
      else if (size =? 1)%nat && Double.lt sumPowers Double.zero
      then Monotonicity_Nonincreasing
      else if (numberPositivePowers =? 0)%nat then Monotonicity_Nonincreasing
      else if (numberPositivePowers =? size)%nat then Monotonicity_Nondecreasing
      else Monotonicity_Unknown
    else if Double.lt (st_coefficient t) Double.zero
    then
      if (size =? 1)%nat && Double.eq sumPowers Double.zero then Monotonicity_Constant
      else if (size =? 1)%nat && Double.gt sumPowers Double.zero
      then Monotonicity_Nonincreasing
      else if (size =? 1)%nat && Double.lt sumPowers Double.zero
      then Monotonicity_Nondecreasing
      else if (numberPositivePowers =? 0)%nat then Monotonicity_Nondecreasing
      else if (numberPositivePowers =? size)%nat then Monotonicity_Nonincreasing
      else Monotonicity_Unknown
    else Monotonicity_Unknown.

Section Signomial.

Context `{LibM}.

Definition SignomialElement_calculate (e : SignomialElement) (point : VectorDouble)
  : double :=
  pow (Variable_calculate (se_variable e) point) (power e).

Definition SignomialTerm_calculate (t : SignomialTerm) (point : VectorDouble) : double :=
  fold_left (fun value E => PrimFloat.mul value (SignomialElement_calculate E point))
    (st_elements t) (st_coefficient t).

#[global] Instance SignomialTerm_Term : Term SignomialTerm := {|
  coefficient := st_coefficient;
  calculate := SignomialTerm_calculate;
  getConvexity := SignomialTerm_getConvexity;
  getMonotonicity := SignomialTerm_getMonotonicity
|}.

End Signomial.

Definition SignomialTerms := Terms SignomialTerm.

Definition SignomialTerms_updateConvexity (s : SignomialTerms) (w : World)
  : SignomialTerms * World :=
  (set_convexity Convexity_Unknown s, w).

Definition SignomialTerms_getConvexity := Terms_getConvexity SignomialTerms_updateConvexity.

Definition SignomialTerms_getMonotonicity `{LibM} :=
  @Terms_getMonotonicity SignomialTerm _.

(** [add(SignomialTermPtr term)] *)
Definition SignomialTerms_add (term : SignomialTerm) (s : SignomialTerms) : SignomialTerms :=
  set_monotonicity Monotonicity_NotSet
    (set_convexity Convexity_NotSet (push_back term s)).

(** [add(SignomialTerms terms)] *)
Definition SignomialTerms_add_all (terms : SignomialTerms) (s : SignomialTerms)
  : SignomialTerms :=
  let s' := fold_left (fun acc TERM => push_back TERM acc) (items terms) s in
  if (0 <? length (items terms))%nat
  then set_monotonicity Monotonicity_NotSet (set_convexity Convexity_NotSet s')
  else s'.

(** ** Nonlinear expressions *)

(** The interval type [mc::Interval] of the MC++ library and the operations on
    it that the expressions call. *)
Class IntervalLib := {
  Interval : Type;
  Interval_make : double -> double -> Interval;
  Interval_add : Interval -> Interval -> Interval;
  Interval_sub : Interval -> Interval -> Interval;
  Interval_mul : Interval -> Interval -> Interval;
  Interval_neg : Interval -> Interval;
  (** [d / I], a double divided by an interval *)
  Interval_rdiv : double -> Interval -> Interval;
  Interval_pow : Interval -> Interval -> Interval;
  Interval_sqrt : Interval -> Interval;
  Interval_log : Interval -> Interval;
  Interval_exp : Interval -> Interval;
  Interval_sin : Interval -> Interval;
  Interval_cos : Interval -> Interval;
  Interval_tan : Interval -> Interval;
  Interval_asin : Interval -> Interval;
  Interval_acos : Interval -> Interval;
  Interval_atan : Interval -> Interval
}.

(** The classes that derive from [NonlinearExpression], one constructor each.
    A node holds its children. *)
Inductive NonlinearExpression :=
| ExpressionConstant (constant : Z)
| ExpressionVariable (variable : VariablePtr)
| ExpressionNegate (child : NonlinearExpression)
| ExpressionInvert (child : NonlinearExpression)
| ExpressionSqrt (child : NonlinearExpression)
| ExpressionLog (child : NonlinearExpression)
| ExpressionExp (child : NonlinearExpression)
| ExpressionSin (child : NonlinearExpression)
| ExpressionCos (child : NonlinearExpression)
| ExpressionTan (child : NonlinearExpression)
| ExpressionArcSin (child : NonlinearExpression)
| ExpressionArcCos (child : NonlinearExpression)
| ExpressionArcTan (child : NonlinearExpression)
| ExpressionPlus (firstChild secondChild : NonlinearExpression)
| ExpressionMinus (firstChild secondChild : NonlinearExpression)
| ExpressionPower (firstChild secondChild : NonlinearExpression)
| ExpressionTimes (children : list NonlinearExpression)
| ExpressionSum (children : list NonlinearExpression).

(** The loop of [ExpressionTimes::calculate(point)], over the children that
    remain, from the value so far. [calc] is the call [C->calculate(point)].
    The result is the value returned together with the children on which
    [calc] was called, in the order of the calls. *)
Fixpoint times_loop {A : Type} (calc : A -> double) (children : list A) (value : double)
  : double * list A :=
  match children with
  | [] => (value, [])
  | C :: rest =>
      let tmpValue := calc C in
      if Double.eq tmpValue Double.zero
      then (Double.zero, [C])
      else
        let '(r, called) := times_loop calc rest (PrimFloat.mul value tmpValue) in
        (r, C :: called)
  end.

(** The loop of [ExpressionSum::calculate(point)]. *)
Fixpoint sum_loop {A : Type} (calc : A -> double) (children : list A) (value : double)
  : double :=
  match children with
  | [] => value
  | C :: rest => sum_loop calc rest (PrimFloat.add value (calc C))
  end.

Section Expressions.

Context `{LibM}.

(** [calculate(const VectorDouble &point)] *)
Fixpoint Expression_calculate (e : NonlinearExpression) (point : VectorDouble) : double :=
  match e with
  | ExpressionConstant constant => Double.of_int constant
  | ExpressionVariable variable => Variable_calculate variable point
  | ExpressionNegate child => PrimFloat.opp (Expression_calculate child point)
  | ExpressionInvert child => PrimFloat.div Double.one (Expression_calculate child point)
  | ExpressionSqrt child => PrimFloat.sqrt (Expression_calculate child point)
  | ExpressionLog child => log (Expression_calculate child point)
  | ExpressionExp child => exp (Expression_calculate child point)
  | ExpressionSin child => sin (Expression_calculate child point)
  | ExpressionCos child => cos (Expression_calculate child point)
  | ExpressionTan child => tan (Expression_calculate child point)
  | ExpressionArcSin child => asin (Expression_calculate child point)
  | ExpressionArcCos child => acos (Expression_calculate child point)
  | ExpressionArcTan child => atan (Expression_calculate child point)
  | ExpressionPlus firstChild secondChild =>
      PrimFloat.add (Expression_calculate firstChild point)
        (Expression_calculate secondChild point)
  | ExpressionMinus firstChild secondChild =>
      PrimFloat.sub (Expression_calculate firstChild point)
        (Expression_calculate secondChild point)
  | ExpressionPower firstChild secondChild =>
      pow (Expression_calculate firstChild point) (Expression_calculate secondChild point)
  | ExpressionTimes children =>
      fst (times_loop (fun C => Expression_calculate C point) children Double.one)
  | ExpressionSum children =>
      sum_loop (fun C => Expression_calculate C point) children Double.zero
  end.

(** The children of a product on which [calculate(point)] is called. *)
Definition ExpressionTimes_called (children : list NonlinearExpression)
    (point : VectorDouble) : list NonlinearExpression :=
  snd (times_loop (fun C => Expression_calculate C point) children Double.one).

Context `{IntervalLib}.

Definition IntervalVector := list Interval.

(** Modelled from the spec: [Variable::calculate(intervalVector)], of
    [Variables.h], the accessor "under a given ... interval vector": the
    interval at the variable's index. Reading past the end of the vector is
    undefined in the source; here it yields [[0, 0]]. *)
Definition Variable_calculate_interval (v : VariablePtr) (intervalVector : IntervalVector)
  : Interval :=
  nth (index v) intervalVector (Interval_make Double.zero Double.zero).

(** The loop of [ExpressionTimes::calculate(intervalVector)], with the
    children on which [calc] was called. *)
Fixpoint times_loop_interval {A : Type} (calc : A -> Interval) (children : list A)
    (tmpInterval : Interval) : Interval * list A :=
  match children with
  | [] => (tmpInterval, [])
  | C :: rest =>
      let '(r, called) :=
        times_loop_interval calc rest (Interval_mul tmpInterval (calc C)) in
      (r, C :: called)
  end.

(** The loop of [ExpressionSum::calculate(intervalVector)]. *)
Fixpoint sum_loop_interval {A : Type} (calc : A -> Interval) (children : list A)
    (tmpInterval : Interval) : Interval :=
  match children with
  | [] => tmpInterval
  | C :: rest => sum_loop_interval calc rest (Interval_add tmpInterval (calc C))
  end.

(** [calculate(const IntervalVector &intervalVector)] *)
Fixpoint Expression_calculate_interval (e : NonlinearExpression)
    (intervalVector : IntervalVector) : Interval :=
  let calc C := Expression_calculate_interval C intervalVector in
  match e with
  | ExpressionConstant constant =>
      Interval_make (Double.of_int constant) (Double.of_int constant)
  | ExpressionVariable variable => Variable_calculate_interval variable intervalVector
  | ExpressionNegate child => Interval_neg (calc child)
  | ExpressionInvert child => Interval_rdiv Double.one (calc child)
  | ExpressionSqrt child => Interval_sqrt (calc child)
  | ExpressionLog child => Interval_log (calc child)
  | ExpressionExp child => Interval_exp (calc child)
  | ExpressionSin child => Interval_sin (calc child)
  | ExpressionCos child => Interval_cos (calc child)
  | ExpressionTan child => Interval_tan (calc child)
  | ExpressionArcSin child => Interval_asin (calc child)
  | ExpressionArcCos child => Interval_acos (calc child)
  | ExpressionArcTan child => Interval_atan (calc child)
  | ExpressionPlus firstChild secondChild =>
      Interval_add (calc firstChild) (calc secondChild)
  | ExpressionMinus firstChild secondChild =>
      Interval_sub (calc firstChild) (calc secondChild)
  | ExpressionPower firstChild secondChild =>
      Interval_pow (calc firstChild) (calc secondChild)
  | ExpressionTimes children =>
      fst (times_loop_interval calc children (Interval_make Double.one Double.one))
  | ExpressionSum children =>
      sum_loop_interval calc children (Interval_make Double.zero Double.zero)
  end.

(** The children of a product on which [calculate(intervalVector)] is
    called. *)
Definition ExpressionTimes_called_interval (children : list NonlinearExpression)
    (intervalVector : IntervalVector) : list NonlinearExpression :=
  snd (times_loop_interval
         (fun C => Expression_calculate_interval C intervalVector) children
         (Interval_make Double.one Double.one)).

End Expressions.

(** ** Tasks and the task handler *)

(** A [TaskBase*]: the address of a task object. *)
Definition TaskPtr := nat.

(** The task classes that the strategies instantiate, each with the arguments
    its constructor gets besides the environment. A [TaskSequential] holds the
    tasks added to it. *)
Inductive TaskObject :=
| TaskSequential (subtasks : list TaskPtr)
| TaskInitializeDualSolver (useLazyStrategy : bool)
| TaskReformulateProblem
| TaskFindInteriorPoint
| TaskCreateDualProblem
| TaskInitializeLinesearch
| TaskInitializeIteration
| TaskAddHyperplanes
| TaskExecuteRelaxationStrategy
| TaskPresolve
| TaskSolveIteration
| TaskSelectPrimalCandidatesFromSolutionPool
| TaskSelectPrimalCandidatesFromLinesearch
| TaskPrintIterationReport
| TaskRepairInfeasibleDualProblem (taskIDTrue taskIDFalse : string)
| TaskCheckAbsoluteGap (taskIDTrue : string)
| TaskCheckRelativeGap (taskIDTrue : string)
| TaskCheckIterationLimit (taskIDTrue : string)
| TaskCheckTimeLimit (taskIDTrue : string)
| TaskCheckUserTermination (taskIDTrue : string)
| TaskCheckConstraintTolerance (taskIDTrue : string)
| TaskCheckIterationError (taskIDTrue : string)
| TaskCheckMaxNumberOfPrimalReductionCuts (taskIDTrue : string)
| TaskCheckPrimalStagnation (taskIDTrue taskIDFalse : string)
| TaskAddPrimalReductionCut (taskIDTrue taskIDFalse : string)
| TaskCheckDualStagnation (taskIDTrue : string)
| TaskSelectPrimalFixedNLPPointsFromSolutionPool
| TaskSelectPrimalCandidatesFromNLP
| TaskUpdateInteriorPoint
| TaskSelectHyperplanePointsESH
| TaskSelectHyperplanePointsECP
| TaskSelectHyperplanePointsByObjectiveLinesearch
| TaskAddIntegerCuts
| TaskGoto (taskID : string)
| TaskTerminate.

#[global] Instance TaskObject_eq_dec : EqDecision TaskObject.
Proof. solve_decision. Defined.

(** Modelled from the spec: the class [TaskHandler], of [TaskHandler.h]: "an
    ordered registry mapping name → Task, plus a movable cursor". Each binding
    "occupies its own slot in the execution order"; the cursor is the number
    of the slot whose task is next, the first slot at the start, and a cursor
    past the last slot is "terminal (no more tasks)". *)
Record TaskHandler := mkTaskHandler {
  taskIDMap : list (string * TaskPtr);
  nextTask : nat
}.

Definition TaskHandler_new : TaskHandler := mkTaskHandler [] 0.

(** Modelled from the spec: [TaskHandler::addTask(task, taskID)], which binds
    the name in a new slot, after the slots there are: "the engine does not
    deduplicate by name". *)
Definition TaskHandler_addTask (task : TaskPtr) (taskID : string) (h : TaskHandler)
  : TaskHandler :=
  mkTaskHandler (taskIDMap h ++ [(taskID, task)]) (nextTask h).


(** The slots of a registry that bind a name: the number of each slot and the
    task it refers to. *)
Definition slots_named (taskID : string) (registry : list (string * TaskPtr))
  : list (nat * TaskPtr) :=
  omap (fun '(i, (n, task)) => if String.eqb n taskID then Some (i, task) else None)
    (imap (fun i b => (i, b)) registry).

(** ** The environment the strategies are built in *)

(** The settings provider: [getIntSetting] and [getBoolSetting] (in the NLP
    strategy [getSetting<int>] and [getSetting<bool>]), by name and
    category. *)
Record Settings := mkSettings {
  getIntSetting : string -> string -> Z;
  getBoolSetting : string -> string -> bool
}.

(** The values of the enumerators of [Enums.h] that the strategies name; a
    value of an enumeration is the integer that underlies it. *)
Class Enums := {
  ES_HyperplaneCutStrategy_ESH : Z;
  ES_HyperplaneCutStrategy_ECP : Z;
  ES_MIPPresolveStrategy_Never : Z;
  ES_ConvexityIdentificationStrategy_AssumeConvex : Z;
  E_ObjectiveFunctionClassification_Quadratic : Z;
  E_ProblemConvexity_Convex : Z
}.

(** What the strategies read of [env->reformulatedProblem]. *)
Record ProblemProperties := mkProblemProperties {
  numberOfNonlinearConstraints : Z;
  isDiscrete : bool;
  problem_convexity : Z;
  objectiveFunction_classification : Z
}.

(** The part of [Environment] that a strategy's constructor changes: it
    creates timers, allocates task objects and binds them in the task handler.
    The settings and the reformulated problem, which it only reads, are
    parameters of the constructor. *)
Record Env := mkEnv {
  timing : list (string * string);
  heap : list TaskObject;
  tasks : TaskHandler
}.

Definition Env_new : Env := mkEnv [] [] TaskHandler_new.

(** *** A state monad for the constructors *)

Definition Build (A : Type) : Type := Env -> A * Env.

Definition ret {A} (a : A) : Build A := fun env => (a, env).

Definition bind {A B} (m : Build A) (k : A -> Build B) : Build B :=
  fun env => let '(a, env') := m env in k a env'.

Notation "x <- m ;; k" := (bind m (fun x => k))
  (at level 100, m at next level, right associativity).
Notation "m ;;; k" := (bind m (fun _ => k))
  (at level 100, right associativity).

(** [if (c) { ... }] *)
Definition when (c : bool) (m : Build unit) : Build unit :=
  if c then m else ret tt.

(** [env->timing->createTimer(name, description)] *)
Definition createTimer (name description : string) : Build unit :=
  fun env =>
    (tt, mkEnv (timing env ++ [(name, description)]) (heap env) (tasks env)).

(** [new T(env, ...)]: a fresh object, at a fresh address. *)
Definition new (t : TaskObject) : Build TaskPtr :=
  fun env =>
    (length (heap env), mkEnv (timing env) (heap env ++ [t]) (tasks env)).

(** [env->tasks->addTask(task, taskID)] *)
Definition addTask (task : TaskPtr) (taskID : string) : Build unit :=
  fun env =>
    (tt, mkEnv (timing env) (heap env) (TaskHandler_addTask task taskID (tasks env))).

(** [dynamic_cast<TaskSequential*>(seq)->addTask(task)]: the task is appended
    to the sub-tasks of the sequential task at [seq]. *)
Definition TaskSequential_addTask (seq : TaskPtr) (task : TaskPtr) : Build unit :=
  fun env =>
    (tt, mkEnv (timing env)
           (alter (fun o => match o with
                            | TaskSequential l => TaskSequential (l ++ [task])
                            | _ => o
                            end) seq (heap env))
           (tasks env)).

(** ** The solution strategies *)

Section Strategies.

Context `{Enums}.

(** [env->settings] and [env->reformulatedProblem] *)
Variable settings : Settings.
Variable reformulatedProblem : ProblemProperties.

(** [env->settings->getIntSetting(name, category)] and
    [env->settings->getBoolSetting(name, category)] *)
Definition intSetting (name category : string) : Build Z :=
  ret (getIntSetting settings name category).

Definition boolSetting (name category : string) : Build bool :=
  ret (getBoolSetting settings name category).

(** [env->reformulatedProblem] *)
Definition problem : Build ProblemProperties :=
  ret reformulatedProblem.

Local Open Scope Z_scope.

(** [SolutionStrategySingleTree::SolutionStrategySingleTree(envPtr)] *)
Definition SolutionStrategySingleTree_new : Build unit :=
  createTimer "ProblemInitialization" " - problem initialization" ;;;
  createTimer "ProblemReformulation" " - problem reformulation" ;;;
  createTimer "InteriorPointSearch" " - interior point search" ;;;

  createTimer "DualProblemsRelaxed" "   - solving relaxed problems" ;;;
  createTimer "DualStrategy" " - dual strategy" ;;;
  createTimer "DualProblemsDiscrete" "   - solving MIP problems" ;;;
  createTimer "DualCutGenerationRootSearch" "   - root search for constraint cuts" ;;;
  createTimer "DualObjectiveRootSearch" "   - root search for objective cut" ;;;

  createTimer "PrimalStrategy" " - primal strategy" ;;;
  createTimer "PrimalBoundStrategyNLP" "   - solving NLP problems" ;;;
  createTimer "PrimalBoundStrategyRootSearch" "   - performing root searches" ;;;

  tFinalizeSolution <- new (TaskSequential []) ;;

  tInitMIPSolver <- new (TaskInitializeDualSolver true) ;;
  addTask tInitMIPSolver "InitMIPSolver" ;;;

  tReformulateProblem <- new TaskReformulateProblem ;;
  addTask tReformulateProblem "ReformulateProb" ;;;

  cutStrategy <- intSetting "CutStrategy" "Dual" ;;
  prob <- problem ;;
  when ((cutStrategy =? ES_HyperplaneCutStrategy_ESH)
        && (0 <? numberOfNonlinearConstraints prob))
    (tFindIntPoint <- new TaskFindInteriorPoint ;;
     addTask tFindIntPoint "FindIntPoint") ;;;

  tCreateDualProblem <- new TaskCreateDualProblem ;;
  addTask tCreateDualProblem "CreateDualProblem" ;;;

  tInitializeLinesearch <- new TaskInitializeLinesearch ;;
  addTask tInitializeLinesearch "InitializeLinesearch" ;;;

  tInitializeIteration <- new TaskInitializeIteration ;;
  addTask tInitializeIteration "InitIter" ;;;

  tAddHPs <- new TaskAddHyperplanes ;;
  addTask tAddHPs "AddHPs" ;;;

  useRelaxation <- boolSetting "Relaxation.Use" "Dual" ;;
  when useRelaxation
    (tExecuteRelaxStrategy <- new TaskExecuteRelaxationStrategy ;;
     addTask tExecuteRelaxStrategy "ExecRelaxStrategyInitial") ;;;

  presolveFrequency <- intSetting "MIP.Presolve.Frequency" "Dual" ;;
  when (negb (presolveFrequency =? ES_MIPPresolveStrategy_Never))
    (tPresolve <- new TaskPresolve ;;
     addTask tPresolve "Presolve") ;;;

  tSolveIteration <- new TaskSolveIteration ;;
  addTask tSolveIteration "SolveIter" ;;;

  tSelectPrimSolPool <- new TaskSelectPrimalCandidatesFromSolutionPool ;;
  addTask tSelectPrimSolPool "SelectPrimSolPool" ;;;
  TaskSequential_addTask tFinalizeSolution tSelectPrimSolPool ;;;

  useLinesearch <- boolSetting "Linesearch.Use" "Primal" ;;
  prob <- problem ;;
  when (useLinesearch && (0 <? numberOfNonlinearConstraints prob))
    (tSelectPrimLinesearch <- new TaskSelectPrimalCandidatesFromLinesearch ;;
     addTask tSelectPrimLinesearch "SelectPrimLinesearch" ;;;
     TaskSequential_addTask tFinalizeSolution tSelectPrimLinesearch) ;;;

  tPrintIterReport <- new TaskPrintIterationReport ;;
  addTask tPrintIterReport "PrintIterReport" ;;;

  convexityStrategy <- intSetting "Convexity" "Strategy" ;;
  when (negb (convexityStrategy =? ES_ConvexityIdentificationStrategy_AssumeConvex))
    (tRepairInfeasibility <- new (TaskRepairInfeasibleDualProblem "SolveIter" "CheckAbsGap") ;;
     addTask tRepairInfeasibility "RepairInfeasibility") ;;;

  tCheckAbsGap <- new (TaskCheckAbsoluteGap "FinalizeSolution") ;;
  addTask tCheckAbsGap "CheckAbsGap" ;;;

  tCheckRelGap <- new (TaskCheckRelativeGap "FinalizeSolution") ;;
  addTask tCheckRelGap "CheckRelGap" ;;;

  tCheckIterLim <- new (TaskCheckIterationLimit "FinalizeSolution") ;;
  addTask tCheckIterLim "CheckIterLim" ;;;

  tCheckTimeLim <- new (TaskCheckTimeLimit "FinalizeSolution") ;;
  addTask tCheckTimeLim "CheckTimeLim" ;;;

  tCheckConstrTol <- new (TaskCheckConstraintTolerance "FinalizeSolution") ;;
  addTask tCheckConstrTol "CheckConstrTol" ;;;

  tCheckIterError <- new (TaskCheckIterationError "FinalizeSolution") ;;
  addTask tCheckIterError "CheckIterError" ;;;

  tCheckMaxNumberOfObjectiveCuts <-
    new (TaskCheckMaxNumberOfPrimalReductionCuts "FinalizeSolution") ;;
  addTask tCheckMaxNumberOfObjectiveCuts "CheckMaxObjectiveCuts" ;;;

  tCheckPrimalStag <- new (TaskCheckPrimalStagnation "AddObjectiveCut" "CheckDualStag") ;;
  addTask tCheckPrimalStag "CheckPrimalStag" ;;;

  tAddObjectiveCut <- new (TaskAddPrimalReductionCut "CheckDualStag" "CheckDualStag") ;;
  addTask tAddObjectiveCut "AddObjectiveCut" ;;;

  tCheckDualStag <- new (TaskCheckDualStagnation "FinalizeSolution") ;;
  addTask tCheckDualStag "CheckDualStag" ;;;

  useFixedInteger <- boolSetting "FixedInteger.Use" "Primal" ;;
  prob <- problem ;;
  when (useFixedInteger && isDiscrete prob)
    (tSelectPrimFixedNLPSolPool <- new TaskSelectPrimalFixedNLPPointsFromSolutionPool ;;
     addTask tSelectPrimFixedNLPSolPool "SelectPrimFixedNLPSolPool" ;;;
     TaskSequential_addTask tFinalizeSolution tSelectPrimFixedNLPSolPool ;;;

     tSelectPrimNLPCheck <- new TaskSelectPrimalCandidatesFromNLP ;;
     addTask tSelectPrimNLPCheck "SelectPrimNLPCheck" ;;;
     TaskSequential_addTask tFinalizeSolution tSelectPrimNLPCheck ;;;

     addTask tCheckAbsGap "CheckAbsGap" ;;;
     addTask tCheckRelGap "CheckRelGap") ;;;

  addTask tInitializeIteration "InitIter2" ;;;

  useRelaxation <- boolSetting "Relaxation.Use" "Dual" ;;
  when useRelaxation
    (tExecuteRelaxStrategy <- new TaskExecuteRelaxationStrategy ;;
     addTask tExecuteRelaxStrategy "ExecRelaxStrategy") ;;;

  cutStrategy <- intSetting "CutStrategy" "Dual" ;;
  (if cutStrategy =? ES_HyperplaneCutStrategy_ESH
   then
     tUpdateInteriorPoint <- new TaskUpdateInteriorPoint ;;
     addTask tUpdateInteriorPoint "UpdateInteriorPoint" ;;;
     tSelectHPPts <- new TaskSelectHyperplanePointsESH ;;
     addTask tSelectHPPts "SelectHPPts"
   else
     tSelectHPPts <- new TaskSelectHyperplanePointsECP ;;
     addTask tSelectHPPts "SelectHPPts") ;;;

  prob <- problem ;;
  when (E_ObjectiveFunctionClassification_Quadratic
          <? objectiveFunction_classification prob)
    (tSelectObjectiveHPPts <- new TaskSelectHyperplanePointsByObjectiveLinesearch ;;
     addTask tSelectObjectiveHPPts "SelectObjectiveHPPts") ;;;

  useIntegerCuts <- boolSetting "HyperplaneCuts.UseIntegerCuts" "Dual" ;;
  when useIntegerCuts
    (tAddICs <- new TaskAddIntegerCuts ;;
     addTask tAddICs "AddICs") ;;;

  addTask tAddHPs "AddHPs" ;;;

  tGoto <- new (TaskGoto "SolveIter") ;;
  addTask tGoto "Goto" ;;;

  addTask tFinalizeSolution "FinalizeSolution" ;;;

  convexityStrategy <- intSetting "Convexity" "Strategy" ;;
  when (negb (convexityStrategy =? ES_ConvexityIdentificationStrategy_AssumeConvex))
    (tAddObjectiveCutFinal <- new (TaskAddPrimalReductionCut "InitIter2" "Terminate") ;;
     TaskSequential_addTask tFinalizeSolution tAddObjectiveCutFinal) ;;;

  tTerminate <- new TaskTerminate ;;
  addTask tTerminate "Terminate".

(** [SolutionStrategyNLP::SolutionStrategyNLP(envPtr)] *)
Definition SolutionStrategyNLP_new : Build unit :=
  createTimer "InteriorPointSearch" " - interior point search" ;;;

  createTimer "DualStrategy" " - dual strategy" ;;;
  createTimer "DualProblemsRelaxed" "   - solving relaxed problems" ;;;
  createTimer "DualProblemsDiscrete" "   - solving MIP problems" ;;;
  createTimer "DualCutGenerationRootSearch" "   - root search for constraint cuts" ;;;
  createTimer "DualObjectiveRootSearch" "   - root search for objective cut" ;;;

  createTimer "PrimalStrategy" " - primal strategy" ;;;
  createTimer "PrimalBoundStrategyRootSearch" "   - performing root searches" ;;;

  tFinalizeSolution <- new (TaskSequential []) ;;

  tInitMIPSolver <- new (TaskInitializeDualSolver false) ;;
  addTask tInitMIPSolver "InitMIPSolver" ;;;

  cutStrategy <- intSetting "CutStrategy" "Dual" ;;
  prob <- problem ;;
  when ((cutStrategy =? ES_HyperplaneCutStrategy_ESH)
        && (0 <? numberOfNonlinearConstraints prob))
    (tFindIntPoint <- new TaskFindInteriorPoint ;;
     addTask tFindIntPoint "FindIntPoint") ;;;

  tCreateDualProblem <- new TaskCreateDualProblem ;;
  addTask tCreateDualProblem "CreateDualProblem" ;;;

  tInitializeLinesearch <- new TaskInitializeLinesearch ;;
  addTask tInitializeLinesearch "InitializeLinesearch" ;;;

  tInitializeIteration <- new TaskInitializeIteration ;;
  addTask tInitializeIteration "InitIter" ;;;

  tAddHPs <- new TaskAddHyperplanes ;;
  addTask tAddHPs "AddHPs" ;;;

  presolveFrequency <- intSetting "MIP.Presolve.Frequency" "Dual" ;;
  when (negb (presolveFrequency =? ES_MIPPresolveStrategy_Never))
    (tPresolve <- new TaskPresolve ;;
     addTask tPresolve "Presolve") ;;;

  tSolveIteration <- new TaskSolveIteration ;;
  addTask tSolveIteration "SolveIter" ;;;

  tSelectPrimSolPool <- new TaskSelectPrimalCandidatesFromSolutionPool ;;
  addTask tSelectPrimSolPool "SelectPrimSolPool" ;;;
  TaskSequential_addTask tFinalizeSolution tSelectPrimSolPool ;;;

  useLinesearch <- boolSetting "Linesearch.Use" "Primal" ;;
  prob <- problem ;;
  when (useLinesearch && (0 <? numberOfNonlinearConstraints prob))
    (tSelectPrimLinesearch <- new TaskSelectPrimalCandidatesFromLinesearch ;;
     addTask tSelectPrimLinesearch "SelectPrimLinesearch" ;;;
     TaskSequential_addTask tFinalizeSolution tSelectPrimLinesearch) ;;;

  tPrintIterReport <- new TaskPrintIterationReport ;;
  addTask tPrintIterReport "PrintIterReport" ;;;

  convexityStrategy <- intSetting "Convexity" "Strategy" ;;
  prob <- problem ;;
  when (negb (convexityStrategy =? ES_ConvexityIdentificationStrategy_AssumeConvex)
        && negb (problem_convexity prob =? E_ProblemConvexity_Convex))
    (tRepairInfeasibility <- new (TaskRepairInfeasibleDualProblem "SolveIter" "CheckAbsGap") ;;
     addTask tRepairInfeasibility "RepairInfeasibility") ;;;

  tCheckAbsGap <- new (TaskCheckAbsoluteGap "FinalizeSolution") ;;
  addTask tCheckAbsGap "CheckAbsGap" ;;;

  tCheckRelGap <- new (TaskCheckRelativeGap "FinalizeSolution") ;;
  addTask tCheckRelGap "CheckRelGap" ;;;

  tCheckIterLim <- new (TaskCheckIterationLimit "FinalizeSolution") ;;
  addTask tCheckIterLim "CheckIterLim" ;;;

  tCheckTimeLim <- new (TaskCheckTimeLimit "FinalizeSolution") ;;
  addTask tCheckTimeLim "CheckTimeLim" ;;;

  tCheckUserTerm <- new (TaskCheckUserTermination "FinalizeSolution") ;;
  addTask tCheckUserTerm "CheckUserTermination" ;;;

  tCheckIterError <- new (TaskCheckIterationError "FinalizeSolution") ;;
  addTask tCheckIterError "CheckIterError" ;;;

  tCheckConstrTol <- new (TaskCheckConstraintTolerance "FinalizeSolution") ;;
  addTask tCheckConstrTol "CheckConstrTol" ;;;

  tCheckPrimalStag <- new (TaskCheckPrimalStagnation "AddObjectiveCut" "CheckDualStag") ;;
  addTask tCheckPrimalStag "CheckPrimalStag" ;;;

  tAddObjectiveCut <- new (TaskAddPrimalReductionCut "CheckDualStag" "CheckDualStag") ;;
  addTask tAddObjectiveCut "AddObjectiveCut" ;;;

  tCheckDualStag <- new (TaskCheckDualStagnation "FinalizeSolution") ;;
  addTask tCheckDualStag "CheckDualStag" ;;;

  addTask tInitializeIteration "InitIter2" ;;;

  cutStrategy <- intSetting "CutStrategy" "Dual" ;;
  (if cutStrategy =? ES_HyperplaneCutStrategy_ESH
   then
     tUpdateInteriorPoint <- new TaskUpdateInteriorPoint ;;
     addTask tUpdateInteriorPoint "UpdateInteriorPoint" ;;;

     tSelectHPPts <- new TaskSelectHyperplanePointsESH ;;
     addTask tSelectHPPts "SelectHPPts"
   else
     tSelectHPPts <- new TaskSelectHyperplanePointsECP ;;
     addTask tSelectHPPts "SelectHPPts") ;;;

  prob <- problem ;;
  when (E_ObjectiveFunctionClassification_Quadratic
          <? objectiveFunction_classification prob)
    (tSelectObjectiveHPPts <- new TaskSelectHyperplanePointsByObjectiveLinesearch ;;
     addTask tSelectObjectiveHPPts "SelectObjectiveHPPts") ;;;

  addTask tAddHPs "AddHPs" ;;;

  tGoto <- new (TaskGoto "SolveIter") ;;
  addTask tGoto "Goto" ;;;

  addTask tFinalizeSolution "FinalizeSolution" ;;;

  convexityStrategy <- intSetting "Convexity" "Strategy" ;;
  prob <- problem ;;
  when (negb (convexityStrategy =? ES_ConvexityIdentificationStrategy_AssumeConvex)
        && negb (problem_convexity prob =? E_ProblemConvexity_Convex))
    (tAddObjectiveCutFinal <- new (TaskAddPrimalReductionCut "InitIter2" "Terminate") ;;
     TaskSequential_addTask tFinalizeSolution tAddObjectiveCutFinal) ;;;

  tTerminate <- new TaskTerminate ;;
  addTask tTerminate "Terminate".

End Strategies.

(** The registry a constructor leaves in the task handler, and the task
    objects it has allocated. *)
Definition built_registry (ctor : Build unit) : list (string * TaskPtr) :=
  taskIDMap (tasks (snd (ctor Env_new))).

Definition built_heap (ctor : Build unit) : list TaskObject :=
  heap (snd (ctor Env_new)).

(** *** solveProblem *)

Section SolveProblem.

(** The state of the whole environment while a strategy runs, and what the
    loop of [solveProblem] calls: [env->tasks->getNextTask(nextTask)], which
    yields a task or none, [nextTask->getType()], [nextTask->run()] and the
    output routine. *)
Context {E : Type}.
Variable getNextTask : E -> option TaskPtr * E.
Variable getType : TaskPtr -> E -> string.
Variable run : TaskPtr -> E -> E.
Variable outputInfo : string -> E -> E.
Variable outputDebug : string -> E -> E.






End SolveProblem.

(** *** A run of plain tasks *)






(** ** Predicates of the statements *)

Definition is_nonincreasing_or_constant (m : E_Monotonicity) : bool :=
  bool_decide (m = Monotonicity_Nonincreasing) || bool_decide (m = Monotonicity_Constant).

Definition is_nondecreasing_or_constant (m : E_Monotonicity) : bool :=
  bool_decide (m = Monotonicity_Nondecreasing) || bool_decide (m = Monotonicity_Constant).

(** The cached monotonicity is either not set or what [updateMonotonicity]
    computes from the terms the collection holds now. *)
Definition monotonicity_coherent {T} `{Term T} (s : Terms T) : Prop :=
  monotonicity s = Monotonicity_NotSet
  \/ monotonicity s = monotonicity (Terms_updateMonotonicity s).

(** The cached convexity of a collection of quadratic terms is either not set
    or what some call of [updateConvexity] has computed from the terms the
    collection holds now. *)
Definition QuadraticTerms_coherent (s : QuadraticTerms) : Prop :=
  convexity s = Convexity_NotSet
  \/ exists eigenSolver w,
       convexity s = convexity (fst (QuadraticTerms_updateConvexity eigenSolver s w)).

(** A query that is asked again, of the collection and in the world that the
    first call left, answers as the first call did and leaves both as they
    are. *)
Definition returns_cached {S A : Type} (get : S -> World -> A * (S * World))
    (s : S) (w : World) : Prop :=
  get (fst (snd (get s w))) (snd (snd (get s w))) = get s w.

(** The coefficient of the first term on the variable at address [a] whose
    coefficient is not zero. *)
Definition first_coefficient (a : nat) (l : list LinearTerm) : option double :=
  lt_coefficient <$>
    head (filter (fun T => address (lt_variable T) = a
                           /\ Double.eq (lt_coefficient T) Double.zero = false) l).

(** A square term: both variable references are the same pointer. *)
Definition is_square (T : QuadraticTerm) : bool :=
  ptr_eqb (firstVariable T) (secondVariable T).

(** Every boolean satisfies [f]. *)
Definition allb (f : bool -> bool) : bool := f true && f false.

(** The slots are two, at different places, and refer to one task. *)
Definition same_task_twice (l : list (nat * TaskPtr)) : option (nat * nat * TaskPtr) :=
  match l with
  | [(i, t); (j, t')] =>
      if Nat.eqb t t' && negb (Nat.eqb i j) then Some (i, j, t) else None
  | _ => None
  end.

(** The name is bound in exactly two slots, both to the same task, which is
    the object [o]. *)
Definition bound_twice_to (o : TaskObject) (taskID : string)
    (registry : list (string * TaskPtr)) (objects : list TaskObject) : bool :=
  match same_task_twice (slots_named taskID registry) with
  | Some (_, _, t) => bool_decide (objects !! t = Some o)
  | None => false
  end.

(** The name is bound in one slot, to the object [o], when [c] holds, and in
    none otherwise. *)
Definition bound_once_iff (c : bool) (o : TaskObject) (taskID : string)
    (registry : list (string * TaskPtr)) (objects : list TaskObject) : bool :=
  match slots_named taskID registry with
  | [] => negb c
  | [(_, t)] => c && bool_decide (objects !! t = Some o)
  | _ => false
  end.

(** ** Concrete inputs *)

Definition x0 : VariablePtr := mkVariable 100 0 "x" VariableType_Continuous.

(** The collections [2 x + 3 x] and [2 x]. *)
Definition two_x_three_x : LinearTerms :=
  LinearTerms_add (mkLinearTerm 3%float x0)
    (LinearTerms_add (mkLinearTerm 2%float x0) Terms_new).

Definition two_x : LinearTerms := LinearTerms_add (mkLinearTerm 2%float x0) Terms_new.

(** The collections [2 x^2 + 3 x^2], [0 x^2] and [- x^2]. *)
Definition two_x2_three_x2 : QuadraticTerms :=
  QuadraticTerms_add (mkQuadraticTerm 3%float x0 x0 false true false)
    (QuadraticTerms_add (mkQuadraticTerm 2%float x0 x0 false true false) Terms_new).



(** An eigenvalue solver that never succeeds. *)
Definition no_eigenSolver : EigenSolver := fun _ _ => None.

(** Stand-ins for [<math.h>] and for the interval library. *)
Definition libm_id : LibM := Build_LibM (fun a _ => a) id id id id id id id id.

Definition bounds_intervals : IntervalLib := {|
  Interval := double * double;
  Interval_make := fun a b => (a, b);
  Interval_add := fun a b => (PrimFloat.add (fst a) (fst b), PrimFloat.add (snd a) (snd b));
  Interval_sub := fun a b => (PrimFloat.sub (fst a) (snd b), PrimFloat.sub (snd a) (fst b));
  Interval_mul := fun a b => (PrimFloat.mul (fst a) (fst b), PrimFloat.mul (snd a) (snd b));
  Interval_neg := fun a => (PrimFloat.opp (snd a), PrimFloat.opp (fst a));
  Interval_rdiv := fun d a => (PrimFloat.div d (snd a), PrimFloat.div d (fst a));
  Interval_pow := fun a _ => a;
  Interval_sqrt := fun a => (PrimFloat.sqrt (fst a), PrimFloat.sqrt (snd a));
  Interval_log := id;
  Interval_exp := id;
  Interval_sin := id;
  Interval_cos := id;
  Interval_tan := id;
  Interval_asin := id;
  Interval_acos := id;
  Interval_atan := id
|}.

(** The children [2], [0] and [1/0] of a product. *)
Definition two_zero_inverse : list NonlinearExpression :=
  [ExpressionConstant 2; ExpressionConstant 0; ExpressionInvert (ExpressionConstant 0)].




(** Enumerators numbered in the order of their declaration, the settings in
    which every integer is 0 and every flag is set, and a discrete problem
    with one nonlinear constraint. *)
Definition enums_in_order : Enums := {|
  ES_HyperplaneCutStrategy_ESH := 0;
  ES_HyperplaneCutStrategy_ECP := 1;
  ES_MIPPresolveStrategy_Never := 0;
  ES_ConvexityIdentificationStrategy_AssumeConvex := 0;
  E_ObjectiveFunctionClassification_Quadratic := 2;
  E_ProblemConvexity_Convex := 1
|}.

Definition settings_all_on : Settings := mkSettings (fun _ _ => 0%Z) (fun _ _ => true).

Definition discrete_problem : ProblemProperties := mkProblemProperties 1 true 0 0.

(** * Further definitions *)

(** ** Further operations and predicates *)

(** The sign of a double: it is greater than zero, less than zero, equal to
    zero, or not a number, and exactly one of the four. *)
Inductive double_sign (c : double) : Prop :=
| sign_positive :
    Double.gt c Double.zero = true -> Double.lt c Double.zero = false ->
    Double.eq c Double.zero = false -> Double.eq c c = true -> double_sign c
| sign_negative :
    Double.gt c Double.zero = false -> Double.lt c Double.zero = true ->
    Double.eq c Double.zero = false -> Double.eq c c = true -> double_sign c
| sign_zero :
    Double.gt c Double.zero = false -> Double.lt c Double.zero = false ->
    Double.eq c Double.zero = true -> Double.eq c c = true -> double_sign c
| sign_nan :
    Double.gt c Double.zero = false -> Double.lt c Double.zero = false ->
    Double.eq c Double.zero = false -> Double.eq c c = false -> double_sign c.

(** The collections of linear terms that the constructor, the two [add] and
    the two queries produce. *)
Inductive LinearTerms_reachable : LinearTerms -> Prop :=
| reach_new : LinearTerms_reachable Terms_new
| reach_add term s :
    LinearTerms_reachable s -> LinearTerms_reachable (LinearTerms_add term s)
| reach_add_all terms s :
    LinearTerms_reachable s -> LinearTerms_reachable (LinearTerms_add_all terms s)
| reach_getConvexity s w :
    LinearTerms_reachable s ->
    LinearTerms_reachable (fst (snd (LinearTerms_getConvexity s w)))
| reach_getMonotonicity s w :
    LinearTerms_reachable s ->
    LinearTerms_reachable (fst (snd (LinearTerms_getMonotonicity s w))).

(** Convex and Concave exchanged, Nondecreasing and Nonincreasing
    exchanged. *)
Definition mirror_convexity (c : E_Convexity) : E_Convexity :=
  match c with
  | Convexity_Convex => Convexity_Concave
  | Convexity_Concave => Convexity_Convex
  | _ => c
  end.

Definition mirror_monotonicity (m : E_Monotonicity) : E_Monotonicity :=
  match m with
  | Monotonicity_Nondecreasing => Monotonicity_Nonincreasing
  | Monotonicity_Nonincreasing => Monotonicity_Nondecreasing
  | _ => m
  end.

(** What a quadratic term adds to the gradient, in the order of the
    additions: the address of the variable and the value. *)
Definition QuadraticTerm_partials (point : VectorDouble) (T : QuadraticTerm)
  : list (nat * double) :=
  if Double.eq (qt_coefficient T) Double.zero then []
  else if ptr_eqb (firstVariable T) (secondVariable T)
  then [(address (firstVariable T),
         PrimFloat.mul (PrimFloat.mul Double.two (qt_coefficient T))
           (nth (index (firstVariable T)) point Double.zero))]
  else [(address (firstVariable T),
         PrimFloat.mul (qt_coefficient T)
           (nth (index (secondVariable T)) point Double.zero));
        (address (secondVariable T),
         PrimFloat.mul (qt_coefficient T)
           (nth (index (firstVariable T)) point Double.zero))].

(** The values added up from the first on, in order; none when there is no
    value. *)
Definition sum_in_order (l : list double) : option double :=
  match l with
  | [] => None
  | v :: rest => Some (fold_left PrimFloat.add rest v)
  end.

(** The values that the terms add for the variable at address [a]. *)
Definition QuadraticTerms_partials_of (a : nat) (point : VectorDouble)
    (l : list QuadraticTerm) : list double :=
  map snd (filter (fun av => fst av = a) (flat_map (QuadraticTerm_partials point) l)).

(** The eigenvalues that the loop of [updateConvexity] reads. *)
Definition eigenvalues_read (n : nat) (eigenvalues : list double) : list double :=
  map (fun i => nth i eigenvalues Double.zero) (seq 0 n).

(** The addresses of the variables of a list of quadratic terms. *)
Definition QuadraticTerms_variables (l : list QuadraticTerm) : gset nat :=
  list_to_set (flat_map (fun T => [address (firstVariable T); address (secondVariable T)]) l).

(** [MonomialTerms::calculateGradient]: the partial derivative that the inner
    loop computes for [V1], the product of the values of the variables of the
    term that are not [V1]. *)
Definition MonomialTerm_partial (T : MonomialTerm) (point : VectorDouble) (V1 : VariablePtr)
  : double :=
  fold_left
    (fun value V2 =>
       if ptr_eqb V1 V2 then value
       else PrimFloat.mul value (Variable_calculate V2 point))
    (mt_variables T) Double.one.

(** One round of the outer loop of [MonomialTerms::calculateGradient]. *)
Definition MonomialTerms_gradient_step (point : VectorDouble)
    (gradient : SparseVariableVector) (T : MonomialTerm) : SparseVariableVector :=
  if Double.eq (mt_coefficient T) Double.zero then gradient
  else
    fold_left
      (fun gradient V1 => fst (map_insert gradient V1 (MonomialTerm_partial T point V1)))
      (mt_variables T) gradient.

Definition MonomialTerms_calculateGradient (s : MonomialTerms) (point : VectorDouble)
  : SparseVariableVector :=
  fold_left (MonomialTerms_gradient_step point) (items s) ∅.

(** The variables that an expression refers to, from left to right. *)
Fixpoint Expression_variables (e : NonlinearExpression) : list VariablePtr :=
  match e with
  | ExpressionConstant _ => []
  | ExpressionVariable variable => [variable]
  | ExpressionNegate child
  | ExpressionInvert child
  | ExpressionSqrt child
  | ExpressionLog child
  | ExpressionExp child
  | ExpressionSin child
  | ExpressionCos child
  | ExpressionTan child
  | ExpressionArcSin child
  | ExpressionArcCos child
  | ExpressionArcTan child => Expression_variables child
  | ExpressionPlus firstChild secondChild
  | ExpressionMinus firstChild secondChild
  | ExpressionPower firstChild secondChild =>
      Expression_variables firstChild ++ Expression_variables secondChild
  | ExpressionTimes children
  | ExpressionSum children => flat_map Expression_variables children
  end.

(** Induction on expressions, with the property of every child of a sum or
    product at hand. *)
Section ExpressionInduction.

Variable P : NonlinearExpression -> Prop.

Hypothesis P_constant : forall constant, P (ExpressionConstant constant).
Hypothesis P_variable : forall variable, P (ExpressionVariable variable).
Hypothesis P_negate : forall child, P child -> P (ExpressionNegate child).
Hypothesis P_invert : forall child, P child -> P (ExpressionInvert child).
Hypothesis P_sqrt : forall child, P child -> P (ExpressionSqrt child).
Hypothesis P_log : forall child, P child -> P (ExpressionLog child).
Hypothesis P_exp : forall child, P child -> P (ExpressionExp child).
Hypothesis P_sin : forall child, P child -> P (ExpressionSin child).
Hypothesis P_cos : forall child, P child -> P (ExpressionCos child).
Hypothesis P_tan : forall child, P child -> P (ExpressionTan child).
Hypothesis P_arcsin : forall child, P child -> P (ExpressionArcSin child).
Hypothesis P_arccos : forall child, P child -> P (ExpressionArcCos child).
Hypothesis P_arctan : forall child, P child -> P (ExpressionArcTan child).
Hypothesis P_plus : forall a b, P a -> P b -> P (ExpressionPlus a b).
Hypothesis P_minus : forall a b, P a -> P b -> P (ExpressionMinus a b).
Hypothesis P_power : forall a b, P a -> P b -> P (ExpressionPower a b).
Hypothesis P_times : forall children, Forall P children -> P (ExpressionTimes children).
Hypothesis P_sum : forall children, Forall P children -> P (ExpressionSum children).

Fixpoint Expression_induction (e : NonlinearExpression) : P e :=
  let children_induction :=
    fix go (l : list NonlinearExpression) : Forall P l :=
      match l with
      | [] => @List.Forall_nil NonlinearExpression P
      | c :: rest => @List.Forall_cons NonlinearExpression P c rest (Expression_induction c) (go rest)
      end in
  match e with
  | ExpressionConstant constant => P_constant constant
  | ExpressionVariable variable => P_variable variable
  | ExpressionNegate child => P_negate child (Expression_induction child)
  | ExpressionInvert child => P_invert child (Expression_induction child)
  | ExpressionSqrt child => P_sqrt child (Expression_induction child)
  | ExpressionLog child => P_log child (Expression_induction child)
  | ExpressionExp child => P_exp child (Expression_induction child)
  | ExpressionSin child => P_sin child (Expression_induction child)
  | ExpressionCos child => P_cos child (Expression_induction child)
  | ExpressionTan child => P_tan child (Expression_induction child)
  | ExpressionArcSin child => P_arcsin child (Expression_induction child)
  | ExpressionArcCos child => P_arccos child (Expression_induction child)
  | ExpressionArcTan child => P_arctan child (Expression_induction child)
  | ExpressionPlus a b => P_plus a b (Expression_induction a) (Expression_induction b)
  | ExpressionMinus a b => P_minus a b (Expression_induction a) (Expression_induction b)
  | ExpressionPower a b => P_power a b (Expression_induction a) (Expression_induction b)
  | ExpressionTimes children => P_times children (children_induction children)
  | ExpressionSum children => P_sum children (children_induction children)
  end.

End ExpressionInduction.

(** The task names that the constructor of a task object is given. *)
Definition targets_of (o : TaskObject) : list string :=
  match o with
  | TaskRepairInfeasibleDualProblem taskIDTrue taskIDFalse
  | TaskCheckPrimalStagnation taskIDTrue taskIDFalse
  | TaskAddPrimalReductionCut taskIDTrue taskIDFalse => [taskIDTrue; taskIDFalse]
  | TaskCheckAbsoluteGap taskIDTrue
  | TaskCheckRelativeGap taskIDTrue
  | TaskCheckIterationLimit taskIDTrue
  | TaskCheckTimeLimit taskIDTrue
  | TaskCheckUserTermination taskIDTrue
  | TaskCheckConstraintTolerance taskIDTrue
  | TaskCheckIterationError taskIDTrue
  | TaskCheckMaxNumberOfPrimalReductionCuts taskIDTrue
  | TaskCheckDualStagnation taskIDTrue => [taskIDTrue]
  | TaskGoto taskID => [taskID]
  | _ => []
  end.

(** The tasks added to a sequential task; none for any other task. *)
Definition subtasks_of (o : TaskObject) : list TaskPtr :=
  match o with
  | TaskSequential subtasks => subtasks
  | _ => []
  end.

(** Some slot of the registry binds the name. *)
Definition is_bound (taskID : string) (registry : list (string * TaskPtr)) : bool :=
  existsb (fun b => String.eqb (fst b) taskID) registry.

(** Every name given to a task object is bound. *)
Definition targets_bound (registry : list (string * TaskPtr)) (objects : list TaskObject)
  : bool :=
  forallb (fun o => forallb (fun n => is_bound n registry) (targets_of o)) objects.

(** Every task of the registry, and every task added to a sequential task, is
    the address of an allocated object. *)
Definition pointers_valid (registry : list (string * TaskPtr)) (objects : list TaskObject)
  : bool :=
  forallb (fun b => (snd b <? length objects)%nat) registry
  && forallb (fun o => forallb (fun t => (t <? length objects)%nat) (subtasks_of o)) objects.

(** The name is bound in exactly one slot, to the object [o]. *)
Definition bound_once_to (o : TaskObject) (taskID : string)
    (registry : list (string * TaskPtr)) (objects : list TaskObject) : bool :=
  match slots_named taskID registry with
  | [(_, t)] => bool_decide (objects !! t = Some o)
  | _ => false
  end.

(** The names bound in more than one slot, each once, in the order in which
    they are last bound. *)
Definition duplicated_names (registry : list (string * TaskPtr)) : list string :=
  remove_dups
    (filter (fun n => (1 < length (slots_named n registry))%nat) (map fst registry)).

(** All the slots that bind the name refer to one task. *)
Definition bound_to_one_task (taskID : string) (registry : list (string * TaskPtr))
  : bool :=
  match slots_named taskID registry with
  | [] => true
  | (_, t) :: rest => forallb (fun s => Nat.eqb (snd s) t) rest
  end.

(** The objects of the tasks added to the sequential task that the name binds;
    none when the name is not bound to a sequential task. *)
Definition sequence_of (taskID : string) (registry : list (string * TaskPtr))
    (objects : list TaskObject) : list (option TaskObject) :=
  match slots_named taskID registry with
  | (_, t) :: _ =>
      match objects !! t with
      | Some o => map (fun sub => objects !! sub) (subtasks_of o)
      | None => []
      end
  | [] => []
  end.

(** The first and the last slots of the registry: it starts with
    "InitMIPSolver", bound to the [TaskInitializeDualSolver] of the given
    flag, and ends with "FinalizeSolution", bound to a sequential task, and
    "Terminate", bound to a [TaskTerminate]; "Terminate", "FinalizeSolution"
    and "SolveIter" are bound once each. *)
Definition registry_frame (useLazyStrategy : bool) (registry : list (string * TaskPtr))
    (objects : list TaskObject) : bool :=
  match registry, rev registry with
  | (first, t0) :: _, (last, tT) :: (before, tF) :: _ =>
      String.eqb first "InitMIPSolver"
      && bool_decide (objects !! t0 = Some (TaskInitializeDualSolver useLazyStrategy))
      && String.eqb before "FinalizeSolution"
      && match objects !! tF with Some (TaskSequential _) => true | _ => false end
      && String.eqb last "Terminate"
      && bool_decide (objects !! tT = Some TaskTerminate)
      && (length (slots_named "Terminate" registry) =? 1)%nat
      && (length (slots_named "FinalizeSolution" registry) =? 1)%nat
      && (length (slots_named "SolveIter" registry) =? 1)%nat
  | _, _ => false
  end.

(** The objects that "FinalizeSolution" runs in the single-tree strategy and
    in the NLP strategy, by the tests that the constructor makes. *)
Definition finalize_sequence (linesearch fixedInteger finalCut : bool)
  : list (option TaskObject) :=
  [Some TaskSelectPrimalCandidatesFromSolutionPool]
  ++ (if linesearch then [Some TaskSelectPrimalCandidatesFromLinesearch] else [])
  ++ (if fixedInteger
      then [Some TaskSelectPrimalFixedNLPPointsFromSolutionPool;
            Some TaskSelectPrimalCandidatesFromNLP]
      else [])
  ++ (if finalCut then [Some (TaskAddPrimalReductionCut "InitIter2" "Terminate")] else []).

(** A check of the registry and of the objects that a constructor leaves. *)
Definition checked (check : list (string * TaskPtr) -> list TaskObject -> bool)
    (ctor : Build unit) : bool :=
  match ctor Env_new with
  | (_, env) => check (taskIDMap (tasks env)) (heap env)
  end.

(** What the two constructors are checked for, whatever the tests they make
    give. *)
Section Checks.

Context `{Enums} (s : Settings) (p : ProblemProperties).

Definition SingleTree_check (registry : list (string * TaskPtr))
    (objects : list TaskObject) : bool :=
  targets_bound registry objects
  && pointers_valid registry objects
  && registry_frame true registry objects
  && bool_decide
       (duplicated_names registry
        = (if getBoolSetting s "FixedInteger.Use" "Primal" && isDiscrete p
           then ["CheckAbsGap"; "CheckRelGap"] else []) ++ ["AddHPs"])
  && forallb (fun n => bound_to_one_task n registry) ["AddHPs"; "CheckAbsGap"; "CheckRelGap"]
  && bool_decide (map snd (slots_named "InitIter2" registry)
                  = map snd (slots_named "InitIter" registry))
  && bound_once_to TaskInitializeIteration "InitIter" registry objects
  && bound_once_to
       (if (getIntSetting s "CutStrategy" "Dual" =? ES_HyperplaneCutStrategy_ESH)%Z
        then TaskSelectHyperplanePointsESH else TaskSelectHyperplanePointsECP)
       "SelectHPPts" registry objects
  && bound_once_iff (getIntSetting s "CutStrategy" "Dual" =? ES_HyperplaneCutStrategy_ESH)%Z
       TaskUpdateInteriorPoint "UpdateInteriorPoint" registry objects
  && bool_decide
       (sequence_of "FinalizeSolution" registry objects
        = finalize_sequence
            (getBoolSetting s "Linesearch.Use" "Primal"
             && (0 <? numberOfNonlinearConstraints p)%Z)
            (getBoolSetting s "FixedInteger.Use" "Primal" && isDiscrete p)
            (negb (getIntSetting s "Convexity" "Strategy"
                   =? ES_ConvexityIdentificationStrategy_AssumeConvex)%Z))
  && bound_once_iff
       (negb (getIntSetting s "Convexity" "Strategy"
              =? ES_ConvexityIdentificationStrategy_AssumeConvex)%Z)
       (TaskRepairInfeasibleDualProblem "SolveIter" "CheckAbsGap") "RepairInfeasibility"
       registry objects
  && negb (is_bound "CheckUserTermination" registry)
  && is_bound "ReformulateProb" registry
  && is_bound "CheckMaxObjectiveCuts" registry.

Definition NLP_check (registry : list (string * TaskPtr)) (objects : list TaskObject)
  : bool :=
  targets_bound registry objects
  && pointers_valid registry objects
  && registry_frame false registry objects
  && bool_decide (duplicated_names registry = ["AddHPs"])
  && forallb (fun n => bound_to_one_task n registry) ["AddHPs"]
  && bool_decide (map snd (slots_named "InitIter2" registry)
                  = map snd (slots_named "InitIter" registry))
  && bound_once_to TaskInitializeIteration "InitIter" registry objects
  && bound_once_to
       (if (getIntSetting s "CutStrategy" "Dual" =? ES_HyperplaneCutStrategy_ESH)%Z
        then TaskSelectHyperplanePointsESH else TaskSelectHyperplanePointsECP)
       "SelectHPPts" registry objects
  && bound_once_iff (getIntSetting s "CutStrategy" "Dual" =? ES_HyperplaneCutStrategy_ESH)%Z
       TaskUpdateInteriorPoint "UpdateInteriorPoint" registry objects
  && bool_decide
       (sequence_of "FinalizeSolution" registry objects
        = finalize_sequence
            (getBoolSetting s "Linesearch.Use" "Primal"
             && (0 <? numberOfNonlinearConstraints p)%Z)
            false
            (negb (getIntSetting s "Convexity" "Strategy"
                   =? ES_ConvexityIdentificationStrategy_AssumeConvex)%Z
             && negb (problem_convexity p =? E_ProblemConvexity_Convex)%Z))
  && bound_once_iff
       (negb (getIntSetting s "Convexity" "Strategy"
              =? ES_ConvexityIdentificationStrategy_AssumeConvex)%Z
        && negb (problem_convexity p =? E_ProblemConvexity_Convex)%Z)
       (TaskRepairInfeasibleDualProblem "SolveIter" "CheckAbsGap") "RepairInfeasibility"
       registry objects
  && forallb (fun n => negb (is_bound n registry))
       ["ReformulateProb"; "ExecRelaxStrategyInitial"; "ExecRelaxStrategy";
        "CheckMaxObjectiveCuts"; "SelectPrimFixedNLPSolPool"; "SelectPrimNLPCheck";
        "AddICs"]
  && is_bound "CheckUserTermination" registry.

End Checks.

(** ** Further concrete inputs *)

(** A second variable, [y]. *)
Definition x1 : VariablePtr := mkVariable 101 1 "y" VariableType_Continuous.

(** The collection holding the bilinear term [1.0 * x * y]. *)
Definition x_times_y : QuadraticTerms :=
  QuadraticTerms_add (mkQuadraticTerm 1%float x0 x1 true false false) Terms_new.

(** An entry and the values added to it afterwards. *)
Definition add_in_order (entry : option double) (l : list double) : option double :=
  match entry with
  | Some old => Some (fold_left PrimFloat.add l old)
  | None => sum_in_order l
  end.

(** The monomials [2.0 * x * y] and [5.0 * x * y]. *)
Definition two_x_y : MonomialTerms :=
  MonomialTerms_add (MonomialTerm_new 2%float [x0; x1]) Terms_new.
Definition five_x_y : MonomialTerms :=
  MonomialTerms_add (MonomialTerm_new 5%float [x0; x1]) Terms_new.

(** The product [(x + 1.0) * x]. *)
Definition x_plus_one_times_x : NonlinearExpression :=
  ExpressionTimes [ExpressionPlus (ExpressionVariable x0) (ExpressionConstant 1);
                   ExpressionVariable x0].

(** The collection [2 x] after [getConvexity] and [getMonotonicity] have been
    called on it. *)
Definition two_x_queried : LinearTerms :=
  fst (snd (LinearTerms_getMonotonicity
              (fst (snd (LinearTerms_getConvexity two_x []))) [])).

(** * Properties *)

(** ** Doubles *)

(** A double that compares equal to 1.0 is 1.0. *)
Lemma double_eq_one (p : double) : Double.eq p Double.one = true -> p = Double.one.
Proof.
  unfold Double.eq, Double.one. rewrite FloatAxioms.eqb_spec. intros Hp.
  apply Prim2SF_inj.
  change (Prim2SF 1%float) with (S754_finite false 4503599627370496 (-52)) in *.
  destruct (Prim2SF p) as [s | s | | s m e];
    try discriminate; try (destruct s; discriminate).
  unfold SFeqb, SFcompare in Hp.
  destruct s; [discriminate|].
  destruct (e ?= -52)%Z eqn:He; try discriminate.
  apply Z.compare_eq in He. subst e.
  destruct (PosDef.Pos.compare_cont Eq m 4503599627370496) eqn:Hm; try discriminate.
  apply Pos.compare_eq in Hm. subst m.
  reflexivity.
Qed.

Lemma forallb_Forall_eq {A} (f : A -> bool) (l : list A) :
  forallb f l = true <-> Forall (fun a => f a = true) l.
Proof.
  induction l as [|a l IH]; simpl.
  - split; [constructor | done].
  - rewrite andb_true_iff, IH, Forall_cons. done.
Qed.

(** ** The template [Terms<T>] *)

Section TermsFacts.

Context {T : Type} `{Term T}.

Lemma monotonicity_fold (l : list T) (a b : bool) :
  fold_left monotonicity_step l (a, b)
  = (a && forallb (fun t => is_nonincreasing_or_constant (getMonotonicity t)) l,
     b && forallb (fun t => is_nondecreasing_or_constant (getMonotonicity t)) l).
Proof.
  revert a b. induction l as [|t l IH]; intros a b; simpl.
  - by rewrite !andb_true_r.
  - rewrite IH. unfold is_nonincreasing_or_constant, is_nondecreasing_or_constant.
    by rewrite !andb_assoc.
Qed.

Lemma updateMonotonicity_value (s : Terms T) :
  monotonicity (Terms_updateMonotonicity s)
  = if forallb (fun t => is_nonincreasing_or_constant (getMonotonicity t)) (items s)
    then Monotonicity_Nonincreasing
    else if forallb (fun t => is_nondecreasing_or_constant (getMonotonicity t)) (items s)
    then Monotonicity_Nondecreasing
    else Monotonicity_Unknown.
Proof.
  unfold Terms_updateMonotonicity. rewrite monotonicity_fold. simpl.
  by repeat case_match.
Qed.

Lemma updateMonotonicity_frame (s : Terms T) :
  items (Terms_updateMonotonicity s) = items s
  /\ convexity (Terms_updateMonotonicity s) = convexity s.
Proof. unfold Terms_updateMonotonicity. by repeat case_match. Qed.

Lemma updateMonotonicity_set (s : Terms T) :
  monotonicity (Terms_updateMonotonicity s) <> Monotonicity_NotSet.
Proof. rewrite updateMonotonicity_value. by repeat case_match. Qed.

Lemma getMonotonicity_hit (s : Terms T) (w : World) :
  monotonicity s <> Monotonicity_NotSet ->
  Terms_getMonotonicity s w = (monotonicity s, (s, w)).
Proof. intros Hs. unfold Terms_getMonotonicity. by rewrite bool_decide_false. Qed.

Lemma getMonotonicity_miss (s : Terms T) (w : World) :
  monotonicity s = Monotonicity_NotSet ->
  Terms_getMonotonicity s w
  = (monotonicity (Terms_updateMonotonicity s), (Terms_updateMonotonicity s, w)).
Proof. intros Hs. unfold Terms_getMonotonicity. by rewrite bool_decide_true. Qed.

Lemma getMonotonicity_value (s : Terms T) (w : World) :
  monotonicity_coherent s ->
  fst (Terms_getMonotonicity s w) = monotonicity (Terms_updateMonotonicity s).
Proof.
  intros Hc. destruct (decide (monotonicity s = Monotonicity_NotSet)) as [Hs | Hs].
  - by rewrite getMonotonicity_miss.
  - rewrite getMonotonicity_hit by done. simpl. by destruct Hc.
Qed.

Lemma getMonotonicity_cached (s : Terms T) (w : World) :
  returns_cached Terms_getMonotonicity s w.
Proof.
  unfold returns_cached.
  destruct (decide (monotonicity s = Monotonicity_NotSet)) as [Hs | Hs].
  - rewrite (getMonotonicity_miss s w Hs). simpl.
    apply getMonotonicity_hit, updateMonotonicity_set.
  - rewrite (getMonotonicity_hit s w Hs). simpl.
    by apply getMonotonicity_hit.
Qed.

(** The invariant holds of a new collection, after any change that resets
    the cache, after any change that keeps the terms and the cache, and
    after a query. *)
Lemma coherent_new : monotonicity_coherent (@Terms_new T).
Proof. by left. Qed.

Lemma coherent_reset (s : Terms T) :
  monotonicity s = Monotonicity_NotSet -> monotonicity_coherent s.
Proof. by left. Qed.

Lemma coherent_frame (s s' : Terms T) :
  items s' = items s -> monotonicity s' = monotonicity s ->
  monotonicity_coherent s -> monotonicity_coherent s'.
Proof.
  intros Hi Hm [Hc | Hc]; [left; congruence|right].
  rewrite Hm, Hc, !updateMonotonicity_value, Hi. done.
Qed.

Lemma coherent_getMonotonicity (s : Terms T) (w : World) :
  monotonicity_coherent s ->
  monotonicity_coherent (fst (snd (Terms_getMonotonicity s w))).
Proof.
  intros Hc. destruct (decide (monotonicity s = Monotonicity_NotSet)) as [Hs | Hs].
  - rewrite getMonotonicity_miss by done. simpl. right.
    rewrite !updateMonotonicity_value.
    by destruct (updateMonotonicity_frame s) as [-> _].
  - by rewrite getMonotonicity_hit.
Qed.

Section Convexity.

Variable updateConvexity : Terms T -> World -> Terms T * World.

Lemma getConvexity_hit (s : Terms T) (w : World) :
  convexity s <> Convexity_NotSet ->
  Terms_getConvexity updateConvexity s w = (convexity s, (s, w)).
Proof. intros Hs. unfold Terms_getConvexity. by rewrite bool_decide_false. Qed.

Lemma getConvexity_miss (s : Terms T) (w : World) :
  convexity s = Convexity_NotSet ->
  Terms_getConvexity updateConvexity s w
  = (convexity (fst (updateConvexity s w)), updateConvexity s w).
Proof.
  intros Hs. unfold Terms_getConvexity. rewrite bool_decide_true by done.
  by destruct (updateConvexity s w).
Qed.

Hypothesis updateConvexity_set :
  forall s w, convexity (fst (updateConvexity s w)) <> Convexity_NotSet.

Lemma getConvexity_cached (s : Terms T) (w : World) :
  returns_cached (Terms_getConvexity updateConvexity) s w.
Proof.
  unfold returns_cached.
  destruct (decide (convexity s = Convexity_NotSet)) as [Hs | Hs].
  - rewrite (getConvexity_miss s w Hs). simpl.
    specialize (updateConvexity_set s w).
    destruct (updateConvexity s w) as [s' w']. simpl in *.
    by apply getConvexity_hit.
  - rewrite (getConvexity_hit s w Hs). simpl.
    by apply getConvexity_hit.
Qed.

End Convexity.

End TermsFacts.



(** ** The four collections *)

Lemma QuadraticTerms_updateConvexity_set (eigenSolver : EigenSolver)
    (s : QuadraticTerms) (w : World) :
  convexity (fst (QuadraticTerms_updateConvexity eigenSolver s w)) <> Convexity_NotSet.
Proof.
  unfold QuadraticTerms_updateConvexity.
  repeat case_match; simpl; discriminate.
Qed.

Lemma QuadraticTerms_updateConvexity_frame (eigenSolver : EigenSolver)
    (s : QuadraticTerms) (w : World) :
  items (fst (QuadraticTerms_updateConvexity eigenSolver s w)) = items s
  /\ monotonicity (fst (QuadraticTerms_updateConvexity eigenSolver s w)) = monotonicity s.
Proof.
  unfold QuadraticTerms_updateConvexity.
  repeat case_match; simpl; done.
Qed.

(** C9: for each of the four collections, a second call of [getConvexity], or
    of [getMonotonicity], with no [add] in between, returns what the first
    call returned and changes neither the collection nor the world. *)
Theorem getters_return_cached `{LibM} (eigenSolver : EigenSolver) :
  (forall (s : LinearTerms) w,
      returns_cached LinearTerms_getConvexity s w
      /\ returns_cached LinearTerms_getMonotonicity s w)
  /\ (forall (s : QuadraticTerms) w,
      returns_cached (QuadraticTerms_getConvexity eigenSolver) s w
      /\ returns_cached QuadraticTerms_getMonotonicity s w)
  /\ (forall (s : MonomialTerms) w,
      returns_cached MonomialTerms_getConvexity s w
      /\ returns_cached MonomialTerms_getMonotonicity s w)
  /\ (forall (s : SignomialTerms) w,
      returns_cached SignomialTerms_getConvexity s w
      /\ returns_cached SignomialTerms_getMonotonicity s w).
Proof.
  repeat split; try apply getMonotonicity_cached;
    apply getConvexity_cached; intros; try discriminate.
  apply QuadraticTerms_updateConvexity_set.
Qed.

(** C2, counterexample: a collection of linear terms that has answered a
    convexity query keeps Linear in its cache when a term is added. *)
Lemma LinearTerms_add_keeps_convexity :
  convexity (LinearTerms_add (mkLinearTerm 2%float x0)
               (fst (snd (LinearTerms_getConvexity Terms_new []))))
  = Convexity_Linear
  /\ Convexity_Linear <> Convexity_NotSet.
Proof. split; [reflexivity | discriminate]. Qed.

(** C2, amended: [add] of a term to a collection of quadratic, monomial or
    signomial terms sets the cached convexity and the cached monotonicity to
    NotSet, and the next query of either recomputes it; [add] of a term to a
    collection of linear terms sets the cached monotonicity to NotSet, so that
    the next query recomputes it, and leaves the cached convexity as it was,
    so that [getConvexity] answers as it did before the term was added. *)
Theorem add_resets_caches `{LibM} (eigenSolver : EigenSolver) :
  (forall term (s : QuadraticTerms) w,
      convexity (QuadraticTerms_add term s) = Convexity_NotSet
      /\ monotonicity (QuadraticTerms_add term s) = Monotonicity_NotSet
      /\ QuadraticTerms_getConvexity eigenSolver (QuadraticTerms_add term s) w
         = (convexity (fst (QuadraticTerms_updateConvexity eigenSolver
                              (QuadraticTerms_add term s) w)),
            QuadraticTerms_updateConvexity eigenSolver (QuadraticTerms_add term s) w)
      /\ QuadraticTerms_getMonotonicity (QuadraticTerms_add term s) w
         = (monotonicity (Terms_updateMonotonicity (QuadraticTerms_add term s)),
            (Terms_updateMonotonicity (QuadraticTerms_add term s), w)))
  /\ (forall term (s : MonomialTerms) w,
      convexity (MonomialTerms_add term s) = Convexity_NotSet
      /\ monotonicity (MonomialTerms_add term s) = Monotonicity_NotSet
      /\ MonomialTerms_getConvexity (MonomialTerms_add term s) w
         = (convexity (fst (MonomialTerms_updateConvexity (MonomialTerms_add term s) w)),
            MonomialTerms_updateConvexity (MonomialTerms_add term s) w)
      /\ MonomialTerms_getMonotonicity (MonomialTerms_add term s) w
         = (monotonicity (Terms_updateMonotonicity (MonomialTerms_add term s)),
            (Terms_updateMonotonicity (MonomialTerms_add term s), w)))
  /\ (forall term (s : SignomialTerms) w,
      convexity (SignomialTerms_add term s) = Convexity_NotSet
      /\ monotonicity (SignomialTerms_add term s) = Monotonicity_NotSet
      /\ SignomialTerms_getConvexity (SignomialTerms_add term s) w
         = (convexity (fst (SignomialTerms_updateConvexity (SignomialTerms_add term s) w)),
            SignomialTerms_updateConvexity (SignomialTerms_add term s) w)
      /\ SignomialTerms_getMonotonicity (SignomialTerms_add term s) w
         = (monotonicity (Terms_updateMonotonicity (SignomialTerms_add term s)),
            (Terms_updateMonotonicity (SignomialTerms_add term s), w)))
  /\ (forall term (s : LinearTerms) w,
      convexity (LinearTerms_add term s) = convexity s
      /\ monotonicity (LinearTerms_add term s) = Monotonicity_NotSet
      /\ fst (LinearTerms_getConvexity (LinearTerms_add term s) w)
         = fst (LinearTerms_getConvexity s w)
      /\ LinearTerms_getMonotonicity (LinearTerms_add term s) w
         = (monotonicity (Terms_updateMonotonicity (LinearTerms_add term s)),
            (Terms_updateMonotonicity (LinearTerms_add term s), w))).
Proof.
  repeat split; try reflexivity.
  - by apply getConvexity_miss.
  - unfold LinearTerms_getConvexity, Terms_getConvexity, LinearTerms_add. simpl.
    by case_bool_decide.
Qed.

(** ** The gradient of a collection of linear terms *)

Lemma LinearTerms_gradient_step_lookup (g : SparseVariableVector) (T : LinearTerm)
    (a : nat) :
  LinearTerms_gradient_step g T !! a
  = match g !! a with
    | Some v => Some v
    | None => first_coefficient a [T]
    end.
Proof.
  unfold LinearTerms_gradient_step, first_coefficient, map_insert.
  destruct (Double.eq (lt_coefficient T) Double.zero) eqn:Hz.
  - rewrite filter_cons_False by (intros [_ ?]; congruence).
    simpl. by destruct (g !! a).
  - destruct (decide (address (lt_variable T) = a)) as [<- | Hne].
    + rewrite filter_cons_True by done. simpl.
      destruct (g !! address (lt_variable T)) eqn:Hg; simpl.
      * by rewrite Hg.
      * by rewrite lookup_insert_eq.
    + rewrite filter_cons_False by (intros [? _]; congruence). simpl.
      destruct (g !! address (lt_variable T)) eqn:Hg; simpl.
      * by destruct (g !! a).
      * rewrite lookup_insert_ne by done. by destruct (g !! a).
Qed.

Lemma LinearTerms_gradient_fold (l : list LinearTerm) (g : SparseVariableVector)
    (a : nat) :
  fold_left LinearTerms_gradient_step l g !! a
  = match g !! a with
    | Some v => Some v
    | None => first_coefficient a l
    end.
Proof.
  revert g. induction l as [|T l IH]; intros g; simpl.
  - by destruct (g !! a).
  - rewrite IH, LinearTerms_gradient_step_lookup.
    destruct (g !! a); [done|].
    unfold first_coefficient. simpl.
    destruct (decide (address (lt_variable T) = a
                      /\ Double.eq (lt_coefficient T) Double.zero = false)) as [Hd | Hd].
    + by rewrite !filter_cons_True by done.
    + by rewrite !filter_cons_False by done.
Qed.

(** What the code computes: the entry of a variable is the coefficient of the
    first term on it whose coefficient is not zero; later terms on the same
    variable add nothing. *)
Lemma LinearTerms_calculateGradient_first (s : LinearTerms) (point : VectorDouble)
    (a : nat) :
  LinearTerms_calculateGradient s point !! a = first_coefficient a (items s).
Proof.
  unfold LinearTerms_calculateGradient.
  by rewrite LinearTerms_gradient_fold, lookup_empty.
Qed.

(** The sibling [QuadraticTerms::calculateGradient] does accumulate: at
    [x = 1] the gradient of [2 x^2 + 3 x^2] maps [x] to [4 + 6]. *)
Lemma QuadraticTerms_calculateGradient_accumulates :
  QuadraticTerms_calculateGradient two_x2_three_x2 [1%float] !! address x0
  = Some 10%float.
Proof. vm_compute. reflexivity. Qed.

(** C1: the code at the failing input. At every point the gradient of
    [2 x + 3 x] maps [x] to 2.0, the coefficient of the first term, and not to
    the sum 5.0 of the two coefficients; for the single term [2 x] the
    gradient is [{x: 2.0}], as the scenario says. *)
Theorem LinearTerms_calculateGradient_duplicate (point : VectorDouble) :
  LinearTerms_calculateGradient two_x_three_x point = {[ address x0 := 2%float ]}
  /\ PrimFloat.add 2%float 3%float = 5%float
  /\ LinearTerms_calculateGradient two_x point = {[ address x0 := 2%float ]}.
Proof.
  split; [|split; [reflexivity|]]; apply map_eq; intros a;
    rewrite LinearTerms_calculateGradient_first;
    (destruct (decide (a = address x0)) as [-> | Hne];
     [ by rewrite lookup_singleton_eq
     | rewrite lookup_singleton_ne by done ]).
  - unfold first_coefficient, two_x_three_x. simpl.
    rewrite !filter_cons_False by (intros [? _]; simpl in *; congruence). done.
  - unfold first_coefficient, two_x. simpl.
    rewrite !filter_cons_False by (intros [? _]; simpl in *; congruence). done.
Qed.

(** ** Signomial terms *)

(** C4: a signomial term of one element whose power is exactly 1 is Linear,
    whatever its coefficient, be it positive, negative, zero or not a
    number. *)
Theorem SignomialTerm_single_power_one_linear (coeff : double) (e : SignomialElement) :
  Double.eq (power e) Double.one = true ->
  SignomialTerm_getConvexity (mkSignomialTerm coeff [e]) = Convexity_Linear.
Proof.
  intros Hp. apply double_eq_one in Hp.
  unfold SignomialTerm_getConvexity, power_scan. simpl. rewrite Hp.
  by destruct (Double.gt Double.one Double.zero).
Qed.

Lemma SignomialTerm_single_power_one_linear_witness :
  SignomialTerm_getConvexity
    (mkSignomialTerm (-3)%float [mkSignomialElement x0 1%float])
  = Convexity_Linear.
Proof.
  apply (SignomialTerm_single_power_one_linear (-3)%float (mkSignomialElement x0 1%float)).
  reflexivity.
Defined.

(** ** The convexity of a collection of quadratic terms *)





(** The invariant holds of a new collection and is kept by [add] and by the
    two queries. *)
Lemma QuadraticTerms_coherent_new : QuadraticTerms_coherent Terms_new.
Proof. by left. Qed.

Lemma QuadraticTerms_coherent_add (term : QuadraticTerm) (s : QuadraticTerms) :
  QuadraticTerms_coherent (QuadraticTerms_add term s).
Proof. by left. Qed.

Lemma QuadraticTerms_coherent_getConvexity (eigenSolver : EigenSolver)
    (s : QuadraticTerms) (w : World) :
  QuadraticTerms_coherent s ->
  QuadraticTerms_coherent (fst (snd (QuadraticTerms_getConvexity eigenSolver s w))).
Proof.
  intros Hc. unfold QuadraticTerms_getConvexity.
  destruct (decide (convexity s = Convexity_NotSet)) as [Hs | Hs].
  - rewrite (getConvexity_miss _ s w Hs). right. exists eigenSolver, w.
    unfold QuadraticTerms_updateConvexity.
    repeat case_match; simpl in *; try done; simplify_eq; simpl in *; congruence.
  - by rewrite (getConvexity_hit _ s w Hs).
Qed.




(** ** Products of expressions *)

Section TimesLoop.
Context {A : Type} (calc : A -> double).

Lemma times_loop_zero (pre : list A) (c : A) (post : list A) (value : double) :
  Forall (fun C => Double.eq (calc C) Double.zero = false) pre ->
  Double.eq (calc c) Double.zero = true ->
  times_loop calc (pre ++ c :: post) value = (Double.zero, pre ++ [c]).
Proof.
  intros Hpre Hc. revert value.
  induction Hpre as [|C pre HC Hpre IH]; intros value; simpl.
  - by rewrite Hc.
  - rewrite HC, IH. done.
Qed.

Lemma times_loop_nonzero (children : list A) (value : double) :
  Forall (fun C => Double.eq (calc C) Double.zero = false) children ->
  times_loop calc children value
  = (fold_left PrimFloat.mul (map calc children) value, children).
Proof.
  intros Hall. revert value.
  induction Hall as [|C l HC Hall IH]; intros value; simpl.
  - done.
  - rewrite HC, IH. done.
Qed.
End TimesLoop.

Lemma times_loop_interval_all `{IntervalLib} {A : Type} (calc : A -> Interval)
    (children : list A) (tmpInterval : Interval) :
  times_loop_interval calc children tmpInterval
  = (fold_left Interval_mul (map calc children) tmpInterval, children).
Proof.
  revert tmpInterval. induction children as [|C l IH]; intros tmpInterval; simpl.
  - done.
  - by rewrite IH.
Qed.

(** C3: in a product, point evaluation goes through the children in order;
    when a child evaluates to exactly 0.0 and no child before it does, the
    result is exactly 0.0 and [calculate] has been called on the children up
    to that one and on none after it; when no child evaluates to 0.0 the
    result is the product of all the values, taken in order from 1.0.
    Interval evaluation multiplies the intervals of all the children, from
    [[1, 1]], and calls [calculate] on every child, whatever the intervals
    are. *)
Theorem ExpressionTimes_calculate_short_circuit `{LibM} `{IntervalLib}
    (children : list NonlinearExpression) (point : VectorDouble)
    (intervalVector : IntervalVector) :
  (forall pre c post,
      children = pre ++ c :: post ->
      Forall (fun C => Double.eq (Expression_calculate C point) Double.zero = false) pre ->
      Double.eq (Expression_calculate c point) Double.zero = true ->
      Expression_calculate (ExpressionTimes children) point = Double.zero
      /\ ExpressionTimes_called children point = pre ++ [c])
  /\ (Forall (fun C => Double.eq (Expression_calculate C point) Double.zero = false)
        children ->
      Expression_calculate (ExpressionTimes children) point
      = fold_left PrimFloat.mul (map (fun C => Expression_calculate C point) children)
          Double.one
      /\ ExpressionTimes_called children point = children)
  /\ (Expression_calculate_interval (ExpressionTimes children) intervalVector
      = fold_left Interval_mul
          (map (fun C => Expression_calculate_interval C intervalVector) children)
          (Interval_make Double.one Double.one)
      /\ ExpressionTimes_called_interval children intervalVector = children).
Proof.
  split; [|split].
  - intros pre c post -> Hpre Hc. unfold ExpressionTimes_called. simpl.
    by rewrite (times_loop_zero _ pre c post _ Hpre Hc).
  - intros Hall. unfold ExpressionTimes_called. simpl.
    by rewrite (times_loop_nonzero _ children _ Hall).
  - unfold ExpressionTimes_called_interval. simpl.
    by rewrite times_loop_interval_all.
Qed.

Lemma ExpressionTimes_calculate_short_circuit_witness :
  @Expression_calculate libm_id (ExpressionTimes two_zero_inverse) [] = Double.zero
  /\ @ExpressionTimes_called libm_id two_zero_inverse []
     = [ExpressionConstant 2; ExpressionConstant 0].
Proof.
  apply (proj1 (@ExpressionTimes_calculate_short_circuit libm_id bounds_intervals
                  two_zero_inverse [] [])
           [ExpressionConstant 2] (ExpressionConstant 0)
           [ExpressionInvert (ExpressionConstant 0)]).
  - reflexivity.
  - repeat constructor.
  - reflexivity.
Defined.



(** ** The loop of [solveProblem] *)

Section SolveProblemFacts.
Context {E : Type}.
Variable getNextTask : E -> option TaskPtr * E.
Variable getType : TaskPtr -> E -> string.
Variable run : TaskPtr -> E -> E.
Variable output : string -> E -> E.


End SolveProblemFacts.




(** ** The registries that the strategies build *)

Lemma slots_named_lookup (taskID : string) (registry : list (string * TaskPtr))
    (i : nat) (task : TaskPtr) :
  (i, task) ∈ slots_named taskID registry <-> registry !! i = Some (taskID, task).
Proof.
  unfold slots_named. rewrite list_elem_of_omap. split.
  - intros ([k nt] & Hin & Hf).
    apply elem_of_lookup_imap in Hin as (k' & b & Heq & Hl).
    simplify_eq. destruct b as [n t].
    destruct (String.eqb n taskID) eqn:Hn; [|done].
    apply String.eqb_eq in Hn. by simplify_eq.
  - intros Hl. exists (i, (taskID, task)). split.
    + apply elem_of_lookup_imap. eauto.
    + by rewrite String.eqb_refl.
Qed.

Lemma same_task_twice_spec (l : list (nat * TaskPtr)) i j t :
  same_task_twice l = Some (i, j, t) -> l = [(i, t); (j, t)] /\ i <> j.
Proof.
  unfold same_task_twice.
  destruct l as [|[i' t1] [|[j' t2] [|? ?]]]; try done.
  destruct (Nat.eqb t1 t2) eqn:Ht; [|done].
  destruct (Nat.eqb i' j') eqn:Hij; [done|]. simpl.
  apply Nat.eqb_eq in Ht. apply Nat.eqb_neq in Hij.
  intros [= <- <- <-]. by subst.
Qed.

Lemma allb_spec (f : bool -> bool) : allb f = true -> forall b, f b = true.
Proof. unfold allb. intros [? ?]%andb_true_iff []; done. Qed.

Ltac expose_flags :=
  cbv -[Z.eqb Z.ltb getIntSetting getBoolSetting numberOfNonlinearConstraints isDiscrete
        problem_convexity objectiveFunction_classification
        ES_HyperplaneCutStrategy_ESH ES_HyperplaneCutStrategy_ECP
        ES_MIPPresolveStrategy_Never ES_ConvexityIdentificationStrategy_AssumeConvex
        E_ObjectiveFunctionClassification_Quadratic E_ProblemConvexity_Convex
        andb negb bound_twice_to bound_once_iff].

Ltac all_flags :=
  repeat lazymatch goal with
         | |- forall b : bool, _ => let b := fresh "b" in intros b
         end;
  repeat match goal with
         | b : bool |- _ => revert b; apply allb_spec
         end;
  vm_compute; reflexivity.

Lemma SingleTree_CheckAbsGap_twice `{Enums} (s : Settings) (p : ProblemProperties) :
  getBoolSetting s "FixedInteger.Use" "Primal" = true ->
  isDiscrete p = true ->
  bound_twice_to (TaskCheckAbsoluteGap "FinalizeSolution") "CheckAbsGap"
    (built_registry (SolutionStrategySingleTree_new s p))
    (built_heap (SolutionStrategySingleTree_new s p)) = true.
Proof.
  intros Hf Hd. unfold built_registry, built_heap.
  expose_flags.
  rewrite Hf, Hd.
  generalize (getIntSetting s "CutStrategy" "Dual" =? ES_HyperplaneCutStrategy_ESH)%Z,
    (0 <? numberOfNonlinearConstraints p)%Z,
    (getBoolSetting s "Relaxation.Use" "Dual"),
    (getIntSetting s "MIP.Presolve.Frequency" "Dual" =? ES_MIPPresolveStrategy_Never)%Z,
    (getBoolSetting s "Linesearch.Use" "Primal"),
    (getIntSetting s "Convexity" "Strategy" =? ES_ConvexityIdentificationStrategy_AssumeConvex)%Z,
    (E_ObjectiveFunctionClassification_Quadratic <? objectiveFunction_classification p)%Z,
    (getBoolSetting s "HyperplaneCuts.UseIntegerCuts" "Dual").
  clear. all_flags.
Qed.

Lemma SingleTree_FindIntPoint `{Enums} (s : Settings) (p : ProblemProperties) :
  bound_once_iff
    ((getIntSetting s "CutStrategy" "Dual" =? ES_HyperplaneCutStrategy_ESH)%Z
     && (0 <? numberOfNonlinearConstraints p)%Z)
    TaskFindInteriorPoint "FindIntPoint"
    (built_registry (SolutionStrategySingleTree_new s p))
    (built_heap (SolutionStrategySingleTree_new s p)) = true.
Proof.
  unfold built_registry, built_heap.
  expose_flags.
  generalize (getIntSetting s "CutStrategy" "Dual" =? ES_HyperplaneCutStrategy_ESH)%Z,
    (0 <? numberOfNonlinearConstraints p)%Z,
    (getBoolSetting s "Relaxation.Use" "Dual"),
    (getIntSetting s "MIP.Presolve.Frequency" "Dual" =? ES_MIPPresolveStrategy_Never)%Z,
    (getBoolSetting s "Linesearch.Use" "Primal"),
    (getIntSetting s "Convexity" "Strategy" =? ES_ConvexityIdentificationStrategy_AssumeConvex)%Z,
    (getBoolSetting s "FixedInteger.Use" "Primal"),
    (isDiscrete p),
    (E_ObjectiveFunctionClassification_Quadratic <? objectiveFunction_classification p)%Z,
    (getBoolSetting s "HyperplaneCuts.UseIntegerCuts" "Dual").
  clear. all_flags.
Qed.

Lemma NLP_FindIntPoint `{Enums} (s : Settings) (p : ProblemProperties) :
  bound_once_iff
    ((getIntSetting s "CutStrategy" "Dual" =? ES_HyperplaneCutStrategy_ESH)%Z
     && (0 <? numberOfNonlinearConstraints p)%Z)
    TaskFindInteriorPoint "FindIntPoint"
    (built_registry (SolutionStrategyNLP_new s p))
    (built_heap (SolutionStrategyNLP_new s p)) = true.
Proof.
  unfold built_registry, built_heap.
  expose_flags.
  generalize (getIntSetting s "CutStrategy" "Dual" =? ES_HyperplaneCutStrategy_ESH)%Z,
    (0 <? numberOfNonlinearConstraints p)%Z,
    (getIntSetting s "MIP.Presolve.Frequency" "Dual" =? ES_MIPPresolveStrategy_Never)%Z,
    (getBoolSetting s "Linesearch.Use" "Primal"),
    (getIntSetting s "Convexity" "Strategy" =? ES_ConvexityIdentificationStrategy_AssumeConvex)%Z,
    (problem_convexity p =? E_ProblemConvexity_Convex)%Z,
    (E_ObjectiveFunctionClassification_Quadratic <? objectiveFunction_classification p)%Z.
  clear. all_flags.
Qed.

Lemma bound_once_iff_spec (c : bool) (o : TaskObject) (taskID : string)
    (registry : list (string * TaskPtr)) (objects : list TaskObject) :
  bound_once_iff c o taskID registry objects = true ->
  (c = true ->
   exists i task, slots_named taskID registry = [(i, task)]
                  /\ registry !! i = Some (taskID, task)
                  /\ objects !! task = Some o)
  /\ (c = false -> slots_named taskID registry = []
                   /\ forall i task, registry !! i <> Some (taskID, task)).
Proof.
  unfold bound_once_iff. intros Hb.
  destruct (slots_named taskID registry) as [|[i t] [|? ?]] eqn:Hs; [| |done].
  - split; intros ->; [done|]. split; [done|]. intros i task Hl.
    apply slots_named_lookup in Hl. rewrite Hs in Hl. by apply elem_of_nil in Hl.
  - apply andb_true_iff in Hb as [-> Ho]. apply bool_decide_eq_true in Ho.
    split; [|done]. intros _. exists i, t. split; [done|]. split; [|done].
    apply slots_named_lookup. rewrite Hs. by left.
Qed.


Lemma bound_twice_to_spec (o : TaskObject) (taskID : string)
    (registry : list (string * TaskPtr)) (objects : list TaskObject) :
  bound_twice_to o taskID registry objects = true ->
  exists i j task,
    i <> j
    /\ registry !! i = Some (taskID, task)
    /\ registry !! j = Some (taskID, task)
    /\ slots_named taskID registry = [(i, task); (j, task)]
    /\ objects !! task = Some o.
Proof.
  unfold bound_twice_to. intros Hb.
  destruct (same_task_twice (slots_named taskID registry)) as [[[i j] task]|] eqn:Hs;
    [|done].
  apply same_task_twice_spec in Hs as [Hs Hij].
  apply bool_decide_eq_true in Hb.
  exists i, j, task. split; [done|].
  split; [|split; [|done]]; apply slots_named_lookup; rewrite Hs; set_solver.
Qed.

(** The rule of inclusion, for a registry in which the name is bound once
    when the two tests succeed and not at all otherwise. *)
Lemma bound_once_iff_rule (setting ESH ECP n : Z) (o : TaskObject) (taskID : string)
    (registry : list (string * TaskPtr)) (objects : list TaskObject) :
  bound_once_iff ((setting =? ESH)%Z && (0 <? n)%Z) o taskID registry objects = true ->
  ((setting = ESH /\ (0 < n)%Z) ->
   exists i task,
     slots_named taskID registry = [(i, task)]
     /\ registry !! i = Some (taskID, task)
     /\ objects !! task = Some o)
  /\ (~ (setting = ESH /\ (0 < n)%Z) ->
      forall i task, registry !! i <> Some (taskID, task))
  /\ (ECP <> ESH ->
      setting = ECP \/ (n <= 0)%Z ->
      forall i task, registry !! i <> Some (taskID, task)).
Proof.
  intros Hb. apply bound_once_iff_spec in Hb as [Hyes Hno].
  assert (~ (setting = ESH /\ (0 < n)%Z) ->
          forall i task, registry !! i <> Some (taskID, task)) as Hout.
  { intros Hn. apply Hno. apply andb_false_iff.
    destruct (Z.eqb_spec setting ESH) as [He | He]; [|by left].
    destruct (Z.ltb_spec 0 n) as [Hl | Hl]; [|by right].
    by destruct Hn. }
  split; [|split].
  - intros [He Hl]. apply Hyes. apply andb_true_iff. split.
    + by apply Z.eqb_eq.
    + by apply Z.ltb_lt.
  - exact Hout.
  - intros Hne Hor. apply Hout. intros [He Hl].
    destruct Hor as [Hor | Hor]; [congruence | lia].
Qed.

(** C7: when the fixed-integer primal setting is on and the problem is
    discrete, the registry that the single-tree strategy builds binds the name
    "CheckAbsGap" in exactly two slots, at different places of the execution
    order, and both slots refer to the same task object, the
    [TaskCheckAbsoluteGap] created with the target "FinalizeSolution". *)
Theorem SingleTree_CheckAbsGap_bound_twice `{Enums} (s : Settings) (p : ProblemProperties) :
  getBoolSetting s "FixedInteger.Use" "Primal" = true ->
  isDiscrete p = true ->
  exists i j task,
    i <> j
    /\ built_registry (SolutionStrategySingleTree_new s p) !! i = Some ("CheckAbsGap", task)
    /\ built_registry (SolutionStrategySingleTree_new s p) !! j = Some ("CheckAbsGap", task)
    /\ slots_named "CheckAbsGap" (built_registry (SolutionStrategySingleTree_new s p))
       = [(i, task); (j, task)]
    /\ built_heap (SolutionStrategySingleTree_new s p) !! task
       = Some (TaskCheckAbsoluteGap "FinalizeSolution").
Proof.
  intros Hf Hd. apply bound_twice_to_spec.
  exact (SingleTree_CheckAbsGap_twice s p Hf Hd).
Qed.

Lemma SingleTree_CheckAbsGap_bound_twice_witness :
  exists i j task,
    i <> j
    /\ built_registry
         (@SolutionStrategySingleTree_new enums_in_order settings_all_on discrete_problem)
       !! i = Some ("CheckAbsGap", task)
    /\ built_registry
         (@SolutionStrategySingleTree_new enums_in_order settings_all_on discrete_problem)
       !! j = Some ("CheckAbsGap", task)
    /\ slots_named "CheckAbsGap"
         (built_registry
            (@SolutionStrategySingleTree_new enums_in_order settings_all_on
               discrete_problem))
       = [(i, task); (j, task)]
    /\ built_heap
         (@SolutionStrategySingleTree_new enums_in_order settings_all_on discrete_problem)
       !! task
       = Some (TaskCheckAbsoluteGap "FinalizeSolution").
Proof.
  exact (@SingleTree_CheckAbsGap_bound_twice enums_in_order settings_all_on
           discrete_problem eq_refl eq_refl).
Defined.

(** C8: in the registry that either strategy builds, the name
    "FindIntPoint" is bound, once and to a [TaskFindInteriorPoint], when the
    setting "CutStrategy" of "Dual" equals ESH and the reformulated problem
    has at least one nonlinear constraint; otherwise, and so with the ECP
    strategy or with no nonlinear constraint, no slot binds it. *)
Theorem FindIntPoint_bound_iff_ESH_and_nonlinear `{Enums} (s : Settings)
    (p : ProblemProperties) (ctor : Build unit) :
  ctor = SolutionStrategySingleTree_new s p \/ ctor = SolutionStrategyNLP_new s p ->
  ((getIntSetting s "CutStrategy" "Dual" = ES_HyperplaneCutStrategy_ESH
    /\ (0 < numberOfNonlinearConstraints p)%Z) ->
   exists i task,
     slots_named "FindIntPoint" (built_registry ctor) = [(i, task)]
     /\ built_registry ctor !! i = Some ("FindIntPoint", task)
     /\ built_heap ctor !! task = Some TaskFindInteriorPoint)
  /\ (~ (getIntSetting s "CutStrategy" "Dual" = ES_HyperplaneCutStrategy_ESH
         /\ (0 < numberOfNonlinearConstraints p)%Z) ->
      forall i task, built_registry ctor !! i <> Some ("FindIntPoint", task))
  /\ (ES_HyperplaneCutStrategy_ECP <> ES_HyperplaneCutStrategy_ESH ->
      getIntSetting s "CutStrategy" "Dual" = ES_HyperplaneCutStrategy_ECP
      \/ (numberOfNonlinearConstraints p <= 0)%Z ->
      forall i task, built_registry ctor !! i <> Some ("FindIntPoint", task)).
Proof.
  intros Hctor. apply bound_once_iff_rule.
  destruct Hctor as [-> | ->].
  - exact (SingleTree_FindIntPoint s p).
  - exact (NLP_FindIntPoint s p).
Qed.

Lemma FindIntPoint_bound_iff_ESH_and_nonlinear_witness :
  (exists i task,
      slots_named "FindIntPoint"
        (built_registry
           (@SolutionStrategyNLP_new enums_in_order settings_all_on discrete_problem))
      = [(i, task)]
      /\ built_registry
           (@SolutionStrategyNLP_new enums_in_order settings_all_on discrete_problem) !! i
         = Some ("FindIntPoint", task)
      /\ built_heap
           (@SolutionStrategyNLP_new enums_in_order settings_all_on discrete_problem)
         !! task
         = Some TaskFindInteriorPoint).
Proof.
  refine (proj1 (@FindIntPoint_bound_iff_ESH_and_nonlinear enums_in_order settings_all_on
                   discrete_problem _ (or_intror eq_refl)) _).
  split; [reflexivity | reflexivity].
Defined.

(** * Further properties *)

(** ** Terms *)

Lemma SFcompare_refl_finite s m e :
  SFcompare (S754_finite s m e) (S754_finite s m e) = Some Eq.
Proof.
  simpl. destruct s; rewrite Z.compare_refl;
    change (PosDef.Pos.compare_cont Eq m m) with (Pos.compare m m);
    by rewrite Pos.compare_refl.
Qed.

Lemma double_sign_cases (c : double) : double_sign c.
Proof.
  pose proof (FloatAxioms.ltb_spec Double.zero c) as Hgt.
  pose proof (FloatAxioms.ltb_spec c Double.zero) as Hlt.
  pose proof (FloatAxioms.eqb_spec c Double.zero) as Heq.
  pose proof (FloatAxioms.eqb_spec c c) as Hrefl.
  change (Prim2SF Double.zero) with (S754_zero false) in *.
  unfold SFltb, SFeqb in *.
  destruct (Prim2SF c) as [s | s | | s m e] eqn:Hc;
    [ | | | rewrite SFcompare_refl_finite in Hrefl]; try destruct s;
    first [ apply sign_zero; unfold Double.gt, Double.lt, Double.eq;
            by rewrite ?Hgt, ?Hlt, ?Heq, ?Hrefl
          | apply sign_negative; unfold Double.gt, Double.lt, Double.eq;
            by rewrite ?Hgt, ?Hlt, ?Heq, ?Hrefl
          | apply sign_positive; unfold Double.gt, Double.lt, Double.eq;
            by rewrite ?Hgt, ?Hlt, ?Heq, ?Hrefl
          | apply sign_nan; unfold Double.gt, Double.lt, Double.eq;
            by rewrite ?Hgt, ?Hlt, ?Heq, ?Hrefl ].
Qed.

(** X1: [LinearTerm::getMonotonicity] and [QuadraticTerm::getMonotonicity]
    look at the coefficient only and agree on it: the term is Nondecreasing
    exactly when the coefficient is greater than zero, Nonincreasing exactly
    when it is less than zero, and Constant exactly when it is zero or not a
    number (neither comparison of the code holds). *)
Theorem term_monotonicity_by_sign (coeff : double) (v v' : VariablePtr) (b1 b2 b3 : bool) :
  LinearTerm_getMonotonicity (mkLinearTerm coeff v)
  = QuadraticTerm_getMonotonicity (mkQuadraticTerm coeff v v' b1 b2 b3)
  /\ (LinearTerm_getMonotonicity (mkLinearTerm coeff v) = Monotonicity_Nondecreasing
      <-> Double.gt coeff Double.zero = true)
  /\ (LinearTerm_getMonotonicity (mkLinearTerm coeff v) = Monotonicity_Nonincreasing
      <-> Double.lt coeff Double.zero = true)
  /\ (LinearTerm_getMonotonicity (mkLinearTerm coeff v) = Monotonicity_Constant
      <-> Double.eq coeff Double.zero = true \/ Double.eq coeff coeff = false).
Proof.
  unfold LinearTerm_getMonotonicity, QuadraticTerm_getMonotonicity. simpl.
  destruct (double_sign_cases coeff) as [-> -> -> -> | -> -> -> -> | -> -> -> -> | -> -> -> ->];
    intuition congruence.
Qed.

Lemma forallb_pointwise {A} (f g : A -> bool) (l : list A) :
  (forall a, f a = g a) -> forallb f l = forallb g l.
Proof. intros Hfg. induction l as [|a l IH]; simpl; [done|]. by rewrite Hfg, IH. Qed.

(** ** aggregate sign rule *)

Section SignRule.
Context {T : Type} `{Term T}.
Hypothesis by_sign : forall t : T,
  getMonotonicity t
  = if Double.gt (coefficient t) Double.zero then Monotonicity_Nondecreasing
    else if Double.lt (coefficient t) Double.zero then Monotonicity_Nonincreasing
    else Monotonicity_Constant.

Lemma nonincreasing_by_sign (t : T) :
  is_nonincreasing_or_constant (getMonotonicity t)
  = negb (Double.gt (coefficient t) Double.zero).
Proof. rewrite by_sign. by repeat case_match. Qed.

Lemma nondecreasing_by_sign (t : T) :
  is_nondecreasing_or_constant (getMonotonicity t)
  = negb (Double.lt (coefficient t) Double.zero).
Proof.
  rewrite by_sign.
  destruct (double_sign_cases (coefficient t)) as [-> -> _ _| -> -> _ _| -> -> _ _| -> -> _ _];
    done.
Qed.

Lemma aggregate_by_sign (s : Terms T) (w : World) :
  monotonicity_coherent s ->
  fst (Terms_getMonotonicity s w)
  = if forallb (fun t => negb (Double.gt (coefficient t) Double.zero)) (items s)
    then Monotonicity_Nonincreasing
    else if forallb (fun t => negb (Double.lt (coefficient t) Double.zero)) (items s)
    then Monotonicity_Nondecreasing
    else Monotonicity_Unknown.
Proof.
  intros Hc. rewrite (getMonotonicity_value s w Hc), updateMonotonicity_value.
  rewrite (forallb_pointwise _ _ _ nonincreasing_by_sign).
  rewrite (forallb_pointwise _ _ _ nondecreasing_by_sign). done.
Qed.
End SignRule.

Lemma forallb_negb_Exists {A} (f : A -> bool) (l : list A) :
  forallb (fun a => negb (f a)) l = false <-> Exists (fun a => f a = true) l.
Proof.
  induction l as [|a l IH]; simpl.
  - split; [done | by intros ?%Exists_nil].
  - rewrite andb_false_iff, negb_false_iff, IH, Exists_cons. done.
Qed.

Lemma forallb_negb_Forall {A} (f : A -> bool) (l : list A) :
  forallb (fun a => negb (f a)) l = true <-> Forall (fun a => f a = false) l.
Proof.
  induction l as [|a l IH]; simpl.
  - split; [constructor | done].
  - rewrite andb_true_iff, negb_true_iff, IH, Forall_cons. done.
Qed.

Lemma LinearTerm_by_sign (t : LinearTerm) :
  getMonotonicity t
  = if Double.gt (coefficient t) Double.zero then Monotonicity_Nondecreasing
    else if Double.lt (coefficient t) Double.zero then Monotonicity_Nonincreasing
    else Monotonicity_Constant.
Proof. reflexivity. Qed.

(** X2: for a collection of linear terms whose cached monotonicity is NotSet
    or was computed from the current terms, [getMonotonicity] answers
    Nonincreasing exactly when no coefficient is greater than zero (so also
    for no terms and for all-zero coefficients), Nondecreasing exactly when
    some coefficient is greater than zero and none is less than zero, and
    Unknown exactly when some coefficient is greater and some is less than
    zero. *)
Theorem LinearTerms_monotonicity_by_signs (s : LinearTerms) (w : World) :
  monotonicity_coherent s ->
  (fst (LinearTerms_getMonotonicity s w) = Monotonicity_Nonincreasing
   <-> Forall (fun t => Double.gt (lt_coefficient t) Double.zero = false) (items s))
  /\ (fst (LinearTerms_getMonotonicity s w) = Monotonicity_Nondecreasing
      <-> Exists (fun t => Double.gt (lt_coefficient t) Double.zero = true) (items s)
          /\ Forall (fun t => Double.lt (lt_coefficient t) Double.zero = false) (items s))
  /\ (fst (LinearTerms_getMonotonicity s w) = Monotonicity_Unknown
      <-> Exists (fun t => Double.gt (lt_coefficient t) Double.zero = true) (items s)
          /\ Exists (fun t => Double.lt (lt_coefficient t) Double.zero = true) (items s)).
Proof.
  intros Hc. unfold LinearTerms_getMonotonicity.
  rewrite (aggregate_by_sign LinearTerm_by_sign s w Hc). simpl.
  rewrite <- !forallb_negb_Exists, <- !forallb_negb_Forall.
  destruct (forallb _ _), (forallb _ _); intuition congruence.
Qed.

Lemma LinearTerms_monotonicity_by_signs_witness :
  fst (LinearTerms_getMonotonicity two_x_three_x []) = Monotonicity_Nondecreasing.
Proof.
  apply (proj1 (proj2 (LinearTerms_monotonicity_by_signs two_x_three_x [] (or_introl eq_refl)))).
  split.
  - left. reflexivity.
  - repeat constructor.
Defined.

(** ** reachable linear terms *)

Lemma fold_push_back_frame {T} (l : list T) (s : Terms T) :
  items (fold_left (fun acc TERM => push_back TERM acc) l s) = items s ++ l
  /\ convexity (fold_left (fun acc TERM => push_back TERM acc) l s) = convexity s
  /\ monotonicity (fold_left (fun acc TERM => push_back TERM acc) l s) = monotonicity s.
Proof.
  revert s. induction l as [|t l IH]; intros s; simpl.
  - by rewrite app_nil_r.
  - destruct (IH (push_back t s)) as (-> & -> & ->). simpl.
    by rewrite <- app_assoc.
Qed.

Lemma LinearTerms_reachable_invariant (s : LinearTerms) :
  LinearTerms_reachable s ->
  (convexity s = Convexity_NotSet \/ convexity s = Convexity_Linear)
  /\ monotonicity_coherent s.
Proof.
  induction 1 as [|term s _ [IHc IHm]|terms s _ [IHc IHm]|s w _ [IHc IHm]|s w _ [IHc IHm]].
  - split; by left.
  - split; [exact IHc | by left].
  - unfold LinearTerms_add_all.
    destruct (0 <? length (items terms))%nat eqn:Hlen.
    + destruct (fold_push_back_frame (items terms) s) as (_ & Hcv & _).
      split; [simpl; by rewrite Hcv | by left].
    + destruct (items terms); [done | discriminate].
  - unfold LinearTerms_getConvexity.
    destruct (decide (convexity s = Convexity_NotSet)) as [Hs | Hs].
    + rewrite getConvexity_miss by done. simpl. split; [by right|].
      by apply (coherent_frame s).
    + by rewrite getConvexity_hit.
  - split.
    + unfold LinearTerms_getMonotonicity.
      destruct (decide (monotonicity s = Monotonicity_NotSet)) as [Hs | Hs].
      * rewrite getMonotonicity_miss by done. simpl.
        by destruct (updateMonotonicity_frame s) as [_ ->].
      * by rewrite getMonotonicity_hit.
    + by apply coherent_getMonotonicity.
Qed.

(** X3: on every collection of linear terms that the constructor, the two
    [add] and the two queries can produce, [getConvexity] answers Linear,
    stores Linear in the cache and leaves the world as it is. *)
Theorem LinearTerms_convexity_always_linear (s : LinearTerms) (w : World) :
  LinearTerms_reachable s ->
  LinearTerms_getConvexity s w = (Convexity_Linear, (set_convexity Convexity_Linear s, w)).
Proof.
  intros [[Hc | Hc] _]%LinearTerms_reachable_invariant; unfold LinearTerms_getConvexity.
  - by rewrite getConvexity_miss.
  - rewrite getConvexity_hit by congruence. rewrite Hc.
    destruct s; simpl in *; by subst.
Qed.

Lemma LinearTerms_convexity_always_linear_witness :
  LinearTerms_getConvexity two_x_three_x []
  = (Convexity_Linear, (set_convexity Convexity_Linear two_x_three_x, [])).
Proof.
  apply (LinearTerms_convexity_always_linear two_x_three_x []).
  apply reach_add, reach_add, reach_new.
Defined.

(** ** gradient of linear terms without repeated variables *)

Lemma first_coefficient_Some (a : nat) (l : list LinearTerm) (v : double) :
  first_coefficient a l = Some v ->
  exists T, T ∈ l /\ address (lt_variable T) = a /\ lt_coefficient T = v
            /\ Double.eq v Double.zero = false.
Proof.
  unfold first_coefficient. intros Hf.
  destruct (filter _ l) as [|T rest] eqn:Hfl; [done|].
  simpl in Hf. injection Hf as <-.
  assert (T ∈ filter (fun T => address (lt_variable T) = a
                        /\ Double.eq (lt_coefficient T) Double.zero = false) l) as Hin
    by (rewrite Hfl; left).
  apply list_elem_of_filter in Hin as [[Ha Hz] Hin]. eauto.
Qed.

Lemma first_coefficient_NoDup (l : list LinearTerm) (T : LinearTerm) :
  NoDup (map (fun T => address (lt_variable T)) l) ->
  T ∈ l ->
  Double.eq (lt_coefficient T) Double.zero = false ->
  first_coefficient (address (lt_variable T)) l = Some (lt_coefficient T).
Proof.
  unfold first_coefficient.
  induction l as [|T' l IH]; intros Hnd Hin Hz; [by apply elem_of_nil in Hin|].
  simpl in Hnd. apply NoDup_cons in Hnd as [Hnotin Hnd].
  apply elem_of_cons in Hin as [<- | Hin].
  - by rewrite filter_cons_True.
  - rewrite filter_cons_False; [by apply IH|].
    intros [Ha _]. apply Hnotin. rewrite Ha.
    apply list_elem_of_fmap. by exists T.
Qed.

(** X4: when no two terms of a collection of linear terms are on the same
    variable, [calculateGradient] is the map from the variable of each term
    with a non-zero coefficient to that coefficient, and has no other
    entry. *)
Theorem LinearTerms_calculateGradient_distinct (s : LinearTerms) (point : VectorDouble) :
  NoDup (map (fun T => address (lt_variable T)) (items s)) ->
  (forall T, T ∈ items s -> Double.eq (lt_coefficient T) Double.zero = false ->
             LinearTerms_calculateGradient s point !! address (lt_variable T)
             = Some (lt_coefficient T))
  /\ (forall a v, LinearTerms_calculateGradient s point !! a = Some v ->
                  exists T, T ∈ items s /\ address (lt_variable T) = a
                            /\ lt_coefficient T = v
                            /\ Double.eq v Double.zero = false).
Proof.
  intros Hnd. split.
  - intros T Hin Hz. rewrite LinearTerms_calculateGradient_first.
    by apply first_coefficient_NoDup.
  - intros a v. rewrite LinearTerms_calculateGradient_first.
    apply first_coefficient_Some.
Qed.

Lemma LinearTerms_calculateGradient_distinct_witness :
  LinearTerms_calculateGradient two_x [] !! address x0 = Some 2%float.
Proof.
  apply (proj1 (LinearTerms_calculateGradient_distinct two_x []
                  ltac:(repeat constructor; set_solver))
           (mkLinearTerm 2%float x0)).
  - left.
  - reflexivity.
Defined.

(** ** bulk add *)

Section BulkAdd.
Context {T : Type} (add : T -> Terms T -> Terms T) (reset : Terms T -> Terms T).
Hypothesis add_reset : forall t s, add t s = reset (push_back t s).
Hypothesis push_reset : forall t s, push_back t (reset s) = reset (push_back t s).
Hypothesis reset_reset : forall s, reset (reset s) = reset s.

Lemma fold_push_back_reset (l : list T) (s : Terms T) :
  reset (fold_left (fun acc TERM => push_back TERM acc) l (reset s))
  = reset (fold_left (fun acc TERM => push_back TERM acc) l s).
Proof.
  revert s. induction l as [|u l IH]; intros s; simpl.
  - apply reset_reset.
  - rewrite push_reset. apply IH.
Qed.

Lemma fold_add_reset (l : list T) (s : Terms T) :
  l <> [] ->
  fold_left (fun acc t => add t acc) l s
  = reset (fold_left (fun acc TERM => push_back TERM acc) l s).
Proof.
  revert s. induction l as [|t l IH]; intros s Hne; [done|]. simpl.
  destruct l as [|t' l].
  - simpl. apply add_reset.
  - rewrite IH by done. rewrite add_reset. apply fold_push_back_reset.
Qed.
Hypothesis items_reset : forall s, items (reset s) = items s.

Lemma add_all_shape (terms s : Terms T) :
  (items terms = [] ->
   (if (0 <? length (items terms))%nat
    then reset (fold_left (fun acc TERM => push_back TERM acc) (items terms) s)
    else fold_left (fun acc TERM => push_back TERM acc) (items terms) s) = s)
  /\ (items terms <> [] ->
      (if (0 <? length (items terms))%nat
       then reset (fold_left (fun acc TERM => push_back TERM acc) (items terms) s)
       else fold_left (fun acc TERM => push_back TERM acc) (items terms) s)
      = fold_left (fun acc t => add t acc) (items terms) s)
  /\ items (if (0 <? length (items terms))%nat
            then reset (fold_left (fun acc TERM => push_back TERM acc) (items terms) s)
            else fold_left (fun acc TERM => push_back TERM acc) (items terms) s)
     = items s ++ items terms.
Proof.
  split; [|split].
  - by intros ->.
  - intros Hne. rewrite fold_add_reset by done.
    by destruct (items terms).
  - destruct (fold_push_back_frame (items terms) s) as (Hi & _ & _).
    destruct (0 <? _)%nat; [by rewrite items_reset | done].
Qed.
End BulkAdd.

(** X5: for each of the four collections, [add] of a collection with no
    terms changes nothing, the caches included; [add] of a collection with
    terms is the [add] of its terms one by one, in order; in both cases the
    terms are appended. *)
Theorem add_all_is_repeated_add :
  (forall terms s : LinearTerms,
      (items terms = [] -> LinearTerms_add_all terms s = s)
      /\ (items terms <> [] ->
          LinearTerms_add_all terms s
          = fold_left (fun acc t => LinearTerms_add t acc) (items terms) s)
      /\ items (LinearTerms_add_all terms s) = items s ++ items terms)
  /\ (forall terms s : QuadraticTerms,
      (items terms = [] -> QuadraticTerms_add_all terms s = s)
      /\ (items terms <> [] ->
          QuadraticTerms_add_all terms s
          = fold_left (fun acc t => QuadraticTerms_add t acc) (items terms) s)
      /\ items (QuadraticTerms_add_all terms s) = items s ++ items terms)
  /\ (forall terms s : MonomialTerms,
      (items terms = [] -> MonomialTerms_add_all terms s = s)
      /\ (items terms <> [] ->
          MonomialTerms_add_all terms s
          = fold_left (fun acc t => MonomialTerms_add t acc) (items terms) s)
      /\ items (MonomialTerms_add_all terms s) = items s ++ items terms)
  /\ (forall terms s : SignomialTerms,
      (items terms = [] -> SignomialTerms_add_all terms s = s)
      /\ (items terms <> [] ->
          SignomialTerms_add_all terms s
          = fold_left (fun acc t => SignomialTerms_add t acc) (items terms) s)
      /\ items (SignomialTerms_add_all terms s) = items s ++ items terms).
Proof.
  split; [|split; [|split]]; intros terms s.
  - by apply (add_all_shape LinearTerms_add (set_monotonicity Monotonicity_NotSet)).
  - by apply (add_all_shape QuadraticTerms_add
                (fun s => set_monotonicity Monotonicity_NotSet
                            (set_convexity Convexity_NotSet s))).
  - by apply (add_all_shape MonomialTerms_add
                (fun s => set_monotonicity Monotonicity_NotSet
                            (set_convexity Convexity_NotSet s))).
  - by apply (add_all_shape SignomialTerms_add
                (fun s => set_monotonicity Monotonicity_NotSet
                            (set_convexity Convexity_NotSet s))).
Qed.

(** ** the matrix of a collection of quadratic terms *)

Lemma convexity_scan_step_facts (acc : ConvexityScan) (T : QuadraticTerm) :
  allSquares (convexity_scan_step acc T) = allSquares acc && is_square T
  /\ length (elements (convexity_scan_step acc T)) = S (length (elements acc))
  /\ (Forall (fun tr => (col tr <= row tr)%nat) (elements acc) ->
      Forall (fun tr => (col tr <= row tr)%nat) (elements (convexity_scan_step acc T)))
  /\ variableMap (convexity_scan_step acc T)
     = variableMap acc ∪ {[ address (firstVariable T); address (secondVariable T) ]}.
Proof.
  unfold convexity_scan_step, is_square.
  destruct (ptr_eqb (firstVariable T) (secondVariable T)) eqn:Hsq; simpl.
  - repeat split.
    + by rewrite andb_true_r.
    + rewrite length_app. simpl. lia.
    + intros Hacc. apply Forall_app. split; [done|]. repeat constructor.
    + unfold ptr_eqb in Hsq. apply Nat.eqb_eq in Hsq. set_solver.
  - repeat split.
    + by rewrite andb_false_r.
    + rewrite length_app. destruct (_ <? _)%nat; simpl; lia.
    + intros Hacc. apply Forall_app. split; [done|].
      destruct (Nat.ltb_spec (index (secondVariable T)) (index (firstVariable T)));
        repeat constructor; simpl; lia.
    + set_solver.
Qed.

Lemma convexity_scan_fold (l : list QuadraticTerm) (acc : ConvexityScan) :
  allSquares (fold_left convexity_scan_step l acc) = allSquares acc && forallb is_square l
  /\ length (elements (fold_left convexity_scan_step l acc))
     = (length (elements acc) + length l)%nat
  /\ (Forall (fun tr => (col tr <= row tr)%nat) (elements acc) ->
      Forall (fun tr => (col tr <= row tr)%nat)
        (elements (fold_left convexity_scan_step l acc)))
  /\ variableMap (fold_left convexity_scan_step l acc)
     = variableMap acc ∪ QuadraticTerms_variables l.
Proof.
  revert acc. induction l as [|T l IH]; intros acc; simpl.
  - rewrite andb_true_r. unfold QuadraticTerms_variables. simpl.
    repeat split; [lia | done | set_solver].
  - destruct (IH (convexity_scan_step acc T)) as (-> & -> & Hlow & ->).
    destruct (convexity_scan_step_facts acc T) as (-> & -> & Hstep & ->).
    repeat split.
    + by rewrite andb_assoc.
    + lia.
    + intros Hacc. by apply Hlow, Hstep.
    + unfold QuadraticTerms_variables. simpl. set_solver.
Qed.

Lemma eigenvalue_fold (eigenvalues : list double) (l : list nat) (a b : bool) :
  fold_left (eigenvalue_step eigenvalues) l (a, b)
  = (a && forallb (fun ev => Double.gt ev Double.zero)
            (map (fun i => nth i eigenvalues Double.zero) l),
     b && forallb (fun ev => Double.lt ev Double.zero)
            (map (fun i => nth i eigenvalues Double.zero) l)).
Proof.
  revert a b. induction l as [|i l IH]; intros a b; simpl.
  - by rewrite !andb_true_r.
  - rewrite IH. by rewrite !andb_assoc.
Qed.

(** X6: when the cached convexity of a collection of quadratic terms is
    NotSet and some term is not a square, [getConvexity] performs one
    eigen-decomposition and prints the matrix once, of a matrix with one row
    per distinct variable and one entry per term, all entries in the lower
    triangle; the answer is Unknown when the decomposition fails, Convex when
    all eigenvalues are greater than zero, Concave when all are less than
    zero and Nonconvex otherwise. *)
Theorem QuadraticTerms_eigen_path (eigenSolver : EigenSolver) (s : QuadraticTerms)
    (w : World) :
  convexity s = Convexity_NotSet ->
  Exists (fun T => is_square T = false) (items s) ->
  exists n elements,
    n = size (QuadraticTerms_variables (items s))
    /\ length elements = length (items s)
    /\ Forall (fun tr => (col tr <= row tr)%nat) elements
    /\ snd (snd (QuadraticTerms_getConvexity eigenSolver s w))
       = w ++ [EigenDecomposition n elements; PrintMatrix n elements]
    /\ fst (QuadraticTerms_getConvexity eigenSolver s w)
       = match eigenSolver n elements with
         | None => Convexity_Unknown
         | Some eigenvalues =>
             if forallb (fun ev => Double.gt ev Double.zero)
                  (eigenvalues_read n eigenvalues)
             then Convexity_Convex
             else if forallb (fun ev => Double.lt ev Double.zero)
                       (eigenvalues_read n eigenvalues)
             then Convexity_Concave
             else Convexity_Nonconvex
         end.
Proof.
  intros Hns Hex.
  destruct (convexity_scan_fold (items s) ConvexityScan_init) as (Hsq & Hlen & Hlow & Hvars).
  assert (forallb is_square (items s) = false) as Hnsq.
  { apply not_true_is_false. intros Hall. apply forallb_Forall_eq in Hall.
    apply Exists_exists in Hex as (T & Hin & HT).
    rewrite Forall_forall in Hall. specialize (Hall T Hin). congruence. }
  rewrite Hnsq in Hsq. simpl in Hsq, Hlen, Hvars.
  rewrite union_empty_l_L in Hvars.
  exists (size (QuadraticTerms_variables (items s))),
         (elements (fold_left convexity_scan_step (items s) ConvexityScan_init)).
  split; [done|]. split; [done|]. split; [by apply Hlow|].
  unfold QuadraticTerms_getConvexity. rewrite getConvexity_miss by done.
  unfold QuadraticTerms_updateConvexity.
  destruct (items s) as [|T l] eqn:Hl; [by apply Exists_nil in Hex|].
  rewrite <- Hl in *.
  replace (length (items s) =? 0)%nat with false by (rewrite Hl; done).
  rewrite Hsq, Hvars. simpl.
  rewrite <- app_assoc. simpl.
  destruct (eigenSolver _ _) as [eigenvalues|]; [|done].
  rewrite eigenvalue_fold. simpl. unfold eigenvalues_read.
  by repeat case_match.
Qed.


Lemma QuadraticTerms_eigen_path_witness :
  exists n elements,
    n = size (QuadraticTerms_variables (items x_times_y))
    /\ length elements = length (items x_times_y)
    /\ Forall (fun tr => (col tr <= row tr)%nat) elements
    /\ snd (snd (QuadraticTerms_getConvexity no_eigenSolver x_times_y []))
       = [] ++ [EigenDecomposition n elements; PrintMatrix n elements]
    /\ fst (QuadraticTerms_getConvexity no_eigenSolver x_times_y [])
       = match no_eigenSolver n elements with
         | None => Convexity_Unknown
         | Some eigenvalues =>
             if forallb (fun ev => Double.gt ev Double.zero)
                  (eigenvalues_read n eigenvalues)
             then Convexity_Convex
             else if forallb (fun ev => Double.lt ev Double.zero)
                       (eigenvalues_read n eigenvalues)
             then Convexity_Concave
             else Convexity_Nonconvex
         end.
Proof.
  apply (QuadraticTerms_eigen_path no_eigenSolver x_times_y []).
  - reflexivity.
  - left. reflexivity.
Defined.

(** ** the gradient of a collection of quadratic terms *)


Lemma add_in_order_app (entry : option double) (l1 l2 : list double) :
  add_in_order (add_in_order entry l1) l2 = add_in_order entry (l1 ++ l2).
Proof.
  destruct entry as [old|]; simpl.
  - by rewrite fold_left_app.
  - destruct l1 as [|v l1]; simpl; [done|]. by rewrite fold_left_app.
Qed.

Lemma accumulate_lookup (g : SparseVariableVector) (v : VariablePtr) (val : double)
    (a : nat) :
  accumulate g v val !! a
  = add_in_order (g !! a) (if decide (address v = a) then [val] else []).
Proof.
  unfold accumulate, map_insert, map_add_at.
  destruct (g !! address v) as [old|] eqn:Hg; simpl.
  - destruct (decide (address v = a)) as [<- | Hne].
    + rewrite lookup_alter_eq, Hg. done.
    + rewrite lookup_alter_ne by done. by destruct (g !! a).
  - destruct (decide (address v = a)) as [<- | Hne].
    + rewrite lookup_insert_eq, Hg. done.
    + rewrite lookup_insert_ne by done. by destruct (g !! a).
Qed.

Lemma QuadraticTerms_gradient_step_lookup (point : VectorDouble)
    (g : SparseVariableVector) (T : QuadraticTerm) (a : nat) :
  QuadraticTerms_gradient_step point g T !! a
  = add_in_order (g !! a) (QuadraticTerms_partials_of a point [T]).
Proof.
  unfold QuadraticTerms_gradient_step, QuadraticTerms_partials_of, QuadraticTerm_partials.
  simpl. rewrite app_nil_r.
  destruct (Double.eq (qt_coefficient T) Double.zero).
  - simpl. by destruct (g !! a).
  - destruct (ptr_eqb (firstVariable T) (secondVariable T)).
    + rewrite accumulate_lookup.
      destruct (decide (address (firstVariable T) = a)) as [Ha | Ha].
      * by rewrite filter_cons_True.
      * by rewrite filter_cons_False.
    + rewrite !accumulate_lookup, add_in_order_app.
      destruct (decide (address (firstVariable T) = a)) as [Ha | Ha];
        destruct (decide (address (secondVariable T) = a)) as [Hb | Hb].
      * rewrite filter_cons_True by done. by rewrite filter_cons_True.
      * rewrite filter_cons_True by done. by rewrite filter_cons_False.
      * rewrite filter_cons_False by done. by rewrite filter_cons_True.
      * rewrite filter_cons_False by done. by rewrite filter_cons_False.
Qed.

Lemma QuadraticTerms_gradient_fold (point : VectorDouble) (l : list QuadraticTerm)
    (g : SparseVariableVector) (a : nat) :
  fold_left (QuadraticTerms_gradient_step point) l g !! a
  = add_in_order (g !! a) (QuadraticTerms_partials_of a point l).
Proof.
  revert g. induction l as [|T l IH]; intros g; simpl.
  - by destruct (g !! a).
  - rewrite IH, QuadraticTerms_gradient_step_lookup, add_in_order_app.
    f_equal. unfold QuadraticTerms_partials_of. simpl.
    by rewrite app_nil_r, filter_app, map_app.
Qed.

(** X7: the entry of [QuadraticTerms::calculateGradient] for a variable is
    the sum, from the first on and in the order of the terms, of what the
    terms with a non-zero coefficient add for it ([2 c x] for a square [c x x],
    [c y] and [c x] for the two variables of [c x y]); there is no entry when
    no term adds a value for it. *)
Theorem QuadraticTerms_calculateGradient_accumulated (s : QuadraticTerms)
    (point : VectorDouble) (a : nat) :
  QuadraticTerms_calculateGradient s point !! a
  = sum_in_order (QuadraticTerms_partials_of a point (items s)).
Proof.
  unfold QuadraticTerms_calculateGradient.
  by rewrite QuadraticTerms_gradient_fold, lookup_empty.
Qed.

(** ** the gradient of a collection of monomial terms *)

Lemma MonomialTerms_gradient_step_coefficient (point : VectorDouble)
    (g : SparseVariableVector) (T T' : MonomialTerm) :
  mt_variables T = mt_variables T' ->
  Double.eq (mt_coefficient T) Double.zero = Double.eq (mt_coefficient T') Double.zero ->
  MonomialTerms_gradient_step point g T = MonomialTerms_gradient_step point g T'.
Proof.
  intros Hv Hz. unfold MonomialTerms_gradient_step, MonomialTerm_partial.
  by rewrite Hv, Hz.
Qed.

(** X8: [MonomialTerms::calculateGradient] uses the coefficient of a term
    only in the test against zero: two collections whose terms have, one by
    one, the same variables and non-zero coefficients have the same
    gradient. *)
Theorem MonomialTerms_calculateGradient_ignores_coefficients (s s' : MonomialTerms)
    (point : VectorDouble) :
  Forall2 (fun T T' =>
             mt_variables T = mt_variables T'
             /\ Double.eq (mt_coefficient T) Double.zero = false
             /\ Double.eq (mt_coefficient T') Double.zero = false)
    (items s) (items s') ->
  MonomialTerms_calculateGradient s point = MonomialTerms_calculateGradient s' point.
Proof.
  unfold MonomialTerms_calculateGradient. generalize (∅ : SparseVariableVector).
  intros g Hall. revert g.
  induction Hall as [|T T' l l' (Hv & Hz & Hz') _ IH]; intros g; simpl; [done|].
  rewrite (MonomialTerms_gradient_step_coefficient point g T T') by congruence.
  apply IH.
Qed.


Lemma MonomialTerms_calculateGradient_ignores_coefficients_witness :
  MonomialTerms_calculateGradient two_x_y [3%float; 4%float]
  = MonomialTerms_calculateGradient five_x_y [3%float; 4%float].
Proof.
  apply (MonomialTerms_calculateGradient_ignores_coefficients two_x_y five_x_y).
  repeat constructor.
Defined.

(** ** signomial terms: the sign of the coefficient *)

(** X9: a signomial term with a coefficient less than zero has the convexity
    and the monotonicity of the term with the same elements and a coefficient
    greater than zero, with Convex and Concave exchanged and Nondecreasing and
    Nonincreasing exchanged. *)
Theorem SignomialTerm_mirror (c c' : double) (els : SignomialElements) :
  Double.gt c Double.zero = true ->
  Double.lt c' Double.zero = true ->
  SignomialTerm_getConvexity (mkSignomialTerm c' els)
  = mirror_convexity (SignomialTerm_getConvexity (mkSignomialTerm c els))
  /\ SignomialTerm_getMonotonicity (mkSignomialTerm c' els)
     = mirror_monotonicity (SignomialTerm_getMonotonicity (mkSignomialTerm c els)).
Proof.
  intros Hc Hc'.
  destruct (double_sign_cases c) as [_ Hlt Hz _ | ? | ? | ?]; try congruence.
  destruct (double_sign_cases c') as [? | Hgt' _ Hz' _ | ? | ?]; try congruence.
  unfold SignomialTerm_getConvexity, SignomialTerm_getMonotonicity. simpl.
  destruct (power_scan els) as [numberPositivePowers sumPowers].
  rewrite Hc, Hc', Hz, Hz', Hgt'.
  split; by repeat case_match.
Qed.

Lemma SignomialTerm_mirror_witness :
  SignomialTerm_getConvexity (mkSignomialTerm (-3)%float [mkSignomialElement x0 2%float])
  = mirror_convexity
      (SignomialTerm_getConvexity (mkSignomialTerm 3%float [mkSignomialElement x0 2%float]))
  /\ SignomialTerm_getMonotonicity
       (mkSignomialTerm (-3)%float [mkSignomialElement x0 2%float])
     = mirror_monotonicity
         (SignomialTerm_getMonotonicity
            (mkSignomialTerm 3%float [mkSignomialElement x0 2%float])).
Proof.
  apply (SignomialTerm_mirror 3%float (-3)%float [mkSignomialElement x0 2%float]).
  - reflexivity.
  - reflexivity.
Defined.

(** X10: a signomial term whose coefficient is neither greater nor less than
    zero is never classified Convex or Concave: its convexity is Linear or
    Nonconvex; its monotonicity is Constant exactly when the coefficient is
    zero, and Unknown exactly when the coefficient is not a number. *)
Theorem SignomialTerm_zero_or_nan_coefficient (c : double) (els : SignomialElements) :
  Double.gt c Double.zero = false ->
  Double.lt c Double.zero = false ->
  (SignomialTerm_getConvexity (mkSignomialTerm c els) = Convexity_Linear
   \/ SignomialTerm_getConvexity (mkSignomialTerm c els) = Convexity_Nonconvex)
  /\ (SignomialTerm_getMonotonicity (mkSignomialTerm c els) = Monotonicity_Constant
      <-> Double.eq c Double.zero = true)
  /\ (SignomialTerm_getMonotonicity (mkSignomialTerm c els) = Monotonicity_Unknown
      <-> Double.eq c c = false).
Proof.
  intros Hgt Hlt.
  unfold SignomialTerm_getConvexity, SignomialTerm_getMonotonicity. simpl.
  destruct (power_scan els) as [numberPositivePowers sumPowers].
  rewrite Hgt, Hlt.
  split; [case_match; first [by left | by right]|].
  destruct (double_sign_cases c) as [? | ? | _ _ Hz Hr | _ _ Hz Hr]; try congruence;
    rewrite Hz, Hr; intuition congruence.
Qed.

Lemma SignomialTerm_zero_or_nan_coefficient_witness :
  SignomialTerm_getMonotonicity (mkSignomialTerm 0%float [mkSignomialElement x0 2%float])
  = Monotonicity_Constant.
Proof.
  apply (proj1 (proj2 (SignomialTerm_zero_or_nan_coefficient 0%float
                         [mkSignomialElement x0 2%float] eq_refl eq_refl))).
  reflexivity.
Defined.

(** ** Expressions *)

(** ** arithmetic of doubles *)

Lemma double_opp_involutive (a : double) : PrimFloat.opp (PrimFloat.opp a) = a.
Proof.
  apply Prim2SF_inj. rewrite !FloatAxioms.opp_spec.
  destruct (Prim2SF a) as [s | s | | s m e]; simpl; by rewrite ?negb_involutive.
Qed.

Lemma double_sub_add_opp (a b : double) :
  PrimFloat.sub a b = PrimFloat.add a (PrimFloat.opp b).
Proof.
  apply Prim2SF_inj. rewrite FloatAxioms.sub_spec, FloatAxioms.add_spec, FloatAxioms.opp_spec.
  unfold SF64sub, SF64add.
  destruct (Prim2SF a) as [sa | sa | | sa ma ea], (Prim2SF b) as [sb | sb | | sb mb eb];
    simpl; try reflexivity; by destruct sa, sb.
Qed.

(** X11: at every point, negating an expression twice gives the value of the
    expression, and [ExpressionMinus a b] has the value of
    [ExpressionPlus a (ExpressionNegate b)]. *)
Theorem Expression_negate_minus `{LibM} (a b : NonlinearExpression) (point : VectorDouble) :
  Expression_calculate (ExpressionNegate (ExpressionNegate a)) point
  = Expression_calculate a point
  /\ Expression_calculate (ExpressionMinus a b) point
     = Expression_calculate (ExpressionPlus a (ExpressionNegate b)) point.
Proof.
  simpl. split; [apply double_opp_involutive | apply double_sub_add_opp].
Qed.

(** ** loops whose calls agree *)

Lemma times_loop_ext {A} (f g : A -> double) (l : list A) (value : double) :
  Forall (fun C => f C = g C) l -> times_loop f l value = times_loop g l value.
Proof.
  intros Hfg. revert value. induction Hfg as [|C l HC _ IH]; intros value; simpl; [done|].
  by rewrite HC, IH.
Qed.

Lemma sum_loop_ext {A} (f g : A -> double) (l : list A) (value : double) :
  Forall (fun C => f C = g C) l -> sum_loop f l value = sum_loop g l value.
Proof.
  intros Hfg. revert value. induction Hfg as [|C l HC _ IH]; intros value; simpl; [done|].
  by rewrite HC, IH.
Qed.

Lemma times_loop_interval_ext `{IntervalLib} {A} (f g : A -> Interval) (l : list A)
    (value : Interval) :
  Forall (fun C => f C = g C) l ->
  times_loop_interval f l value = times_loop_interval g l value.
Proof.
  intros Hfg. revert value. induction Hfg as [|C l HC _ IH]; intros value; simpl; [done|].
  by rewrite HC, IH.
Qed.

Lemma sum_loop_interval_ext `{IntervalLib} {A} (f g : A -> Interval) (l : list A)
    (value : Interval) :
  Forall (fun C => f C = g C) l ->
  sum_loop_interval f l value = sum_loop_interval g l value.
Proof.
  intros Hfg. revert value. induction Hfg as [|C l HC _ IH]; intros value; simpl; [done|].
  by rewrite HC, IH.
Qed.

Lemma Forall_flat_map_variables (P : VariablePtr -> Prop) (Q : NonlinearExpression -> Prop)
    (children : list NonlinearExpression) :
  Forall (fun C => (forall v, v ∈ Expression_variables C -> P v) -> Q C) children ->
  (forall v, v ∈ flat_map Expression_variables children -> P v) ->
  Forall Q children.
Proof.
  induction 1 as [|C l HC _ IH]; intros Hv; constructor.
  - apply HC. intros v Hin. apply Hv. simpl. set_solver.
  - apply IH. intros v Hin. apply Hv. simpl. set_solver.
Qed.

Lemma Expression_calculate_frame `{LibM} (point point' : VectorDouble)
    (e : NonlinearExpression) :
  (forall v, v ∈ Expression_variables e ->
             Variable_calculate v point = Variable_calculate v point') ->
  Expression_calculate e point = Expression_calculate e point'.
Proof.
  induction e using Expression_induction; simpl; intros Hv;
    try (f_equal; auto; fail).
  - apply Hv. set_solver.
  - rewrite IHe1, IHe2; [done | |]; intros v Hin; apply Hv; set_solver.
  - rewrite IHe1, IHe2; [done | |]; intros v Hin; apply Hv; set_solver.
  - rewrite IHe1, IHe2; [done | |]; intros v Hin; apply Hv; set_solver.
  - f_equal. apply times_loop_ext.
    match goal with
    | HF : Forall _ _ |- _ =>
        exact (Forall_flat_map_variables
                 (fun v => Variable_calculate v point = Variable_calculate v point')
                 (fun C => Expression_calculate C point = Expression_calculate C point')
                 _ HF Hv)
    end.
  - apply sum_loop_ext.
    match goal with
    | HF : Forall _ _ |- _ =>
        exact (Forall_flat_map_variables
                 (fun v => Variable_calculate v point = Variable_calculate v point')
                 (fun C => Expression_calculate C point = Expression_calculate C point')
                 _ HF Hv)
    end.
Qed.

Lemma Expression_calculate_interval_frame `{IntervalLib}
    (iv iv' : IntervalVector) (e : NonlinearExpression) :
  (forall v, v ∈ Expression_variables e ->
             Variable_calculate_interval v iv = Variable_calculate_interval v iv') ->
  Expression_calculate_interval e iv = Expression_calculate_interval e iv'.
Proof.
  induction e using Expression_induction; simpl; intros Hv;
    try (f_equal; auto; fail).
  - apply Hv. set_solver.
  - rewrite IHe1, IHe2; [done | |]; intros v Hin; apply Hv; set_solver.
  - rewrite IHe1, IHe2; [done | |]; intros v Hin; apply Hv; set_solver.
  - rewrite IHe1, IHe2; [done | |]; intros v Hin; apply Hv; set_solver.
  - f_equal. apply times_loop_interval_ext.
    match goal with
    | HF : Forall _ _ |- _ =>
        exact (Forall_flat_map_variables
                 (fun v => Variable_calculate_interval v iv
                           = Variable_calculate_interval v iv')
                 (fun C => Expression_calculate_interval C iv
                           = Expression_calculate_interval C iv')
                 _ HF Hv)
    end.
  - apply sum_loop_interval_ext.
    match goal with
    | HF : Forall _ _ |- _ =>
        exact (Forall_flat_map_variables
                 (fun v => Variable_calculate_interval v iv
                           = Variable_calculate_interval v iv')
                 (fun C => Expression_calculate_interval C iv
                           = Expression_calculate_interval C iv')
                 _ HF Hv)
    end.
Qed.

(** X12: the value of an expression, at a point and on a vector of
    intervals, depends only on the entries at the indices of the variables
    that occur in it: two points (two interval vectors) that agree there give
    the same value, whatever their other entries and their lengths. *)
Theorem Expression_calculate_depends_on_its_variables `{LibM} `{IntervalLib}
    (e : NonlinearExpression) (point point' : VectorDouble)
    (intervalVector intervalVector' : IntervalVector) :
  (forall v, v ∈ Expression_variables e ->
             nth (index v) point Double.zero = nth (index v) point' Double.zero) ->
  (forall v, v ∈ Expression_variables e ->
             nth (index v) intervalVector (Interval_make Double.zero Double.zero)
             = nth (index v) intervalVector' (Interval_make Double.zero Double.zero)) ->
  Expression_calculate e point = Expression_calculate e point'
  /\ Expression_calculate_interval e intervalVector
     = Expression_calculate_interval e intervalVector'.
Proof.
  intros Hp Hi. split.
  - by apply Expression_calculate_frame.
  - by apply Expression_calculate_interval_frame.
Qed.


Lemma Expression_calculate_depends_on_its_variables_witness :
  @Expression_calculate libm_id x_plus_one_times_x [3%float; 4%float]
  = @Expression_calculate libm_id x_plus_one_times_x [3%float; 7%float; 9%float]
  /\ @Expression_calculate_interval bounds_intervals x_plus_one_times_x
       [(3%float, 4%float)]
     = @Expression_calculate_interval bounds_intervals x_plus_one_times_x
         [(3%float, 4%float); (1%float, 2%float)].
Proof.
  apply (@Expression_calculate_depends_on_its_variables libm_id bounds_intervals).
  - intros v Hv. unfold x_plus_one_times_x in Hv. simpl in Hv.
    assert (v = x0) as -> by set_solver. reflexivity.
  - intros v Hv. unfold x_plus_one_times_x in Hv. simpl in Hv.
    assert (v = x0) as -> by set_solver. reflexivity.
Defined.

(** ** The tasks of the strategies *)

Ltac expose_tests :=
  cbv -[Z.eqb Z.ltb getIntSetting getBoolSetting numberOfNonlinearConstraints isDiscrete
        problem_convexity objectiveFunction_classification
        ES_HyperplaneCutStrategy_ESH ES_HyperplaneCutStrategy_ECP
        ES_MIPPresolveStrategy_Never ES_ConvexityIdentificationStrategy_AssumeConvex
        E_ObjectiveFunctionClassification_Quadratic E_ProblemConvexity_Convex
        andb negb bound_once_iff bound_once_to targets_bound pointers_valid
        duplicated_names bound_to_one_task sequence_of registry_frame finalize_sequence
        is_bound slots_named forallb bool_decide checked].

Ltac abstract_test t :=
  lazymatch goal with
  | |- context [t] => generalize t
  | _ => idtac
  end.

Ltac abstract_tests s p :=
  abstract_test (getIntSetting s "CutStrategy" "Dual" =? ES_HyperplaneCutStrategy_ESH)%Z;
  abstract_test (0 <? numberOfNonlinearConstraints p)%Z;
  abstract_test (getBoolSetting s "Relaxation.Use" "Dual");
  abstract_test
    (getIntSetting s "MIP.Presolve.Frequency" "Dual" =? ES_MIPPresolveStrategy_Never)%Z;
  abstract_test (getBoolSetting s "Linesearch.Use" "Primal");
  abstract_test
    (getIntSetting s "Convexity" "Strategy"
     =? ES_ConvexityIdentificationStrategy_AssumeConvex)%Z;
  abstract_test (problem_convexity p =? E_ProblemConvexity_Convex)%Z;
  abstract_test (getBoolSetting s "FixedInteger.Use" "Primal");
  abstract_test (isDiscrete p);
  abstract_test
    (E_ObjectiveFunctionClassification_Quadratic <? objectiveFunction_classification p)%Z;
  abstract_test (getBoolSetting s "HyperplaneCuts.UseIntegerCuts" "Dual");
  clear.

Ltac by_all_tests s p :=
  unfold SingleTree_check, NLP_check; expose_tests; abstract_tests s p; all_flags.

Lemma checked_built (check : list (string * TaskPtr) -> list TaskObject -> bool)
    (ctor : Build unit) :
  checked check ctor = check (built_registry ctor) (built_heap ctor).
Proof. unfold checked, built_registry, built_heap. by destruct (ctor Env_new). Qed.

Section Reflection.
Context `{Enums} (s : Settings) (p : ProblemProperties).

Lemma SingleTree_checked :
  checked (SingleTree_check s p) (SolutionStrategySingleTree_new s p) = true.
Proof. by_all_tests s p. Qed.

Lemma NLP_checked : checked (NLP_check s p) (SolutionStrategyNLP_new s p) = true.
Proof. by_all_tests s p. Qed.

End Reflection.

(** ** What the checks mean *)

Section CheckMeaning.

Variable registry : list (string * TaskPtr).
Variable objects : list TaskObject.

Lemma is_bound_lookup (taskID : string) :
  is_bound taskID registry = true <-> exists i task, registry !! i = Some (taskID, task).
Proof.
  unfold is_bound. rewrite existsb_exists. split.
  - intros ([n t] & Hin & Hn). simpl in Hn. apply String.eqb_eq in Hn. subst n.
    apply list_elem_of_In, list_elem_of_lookup in Hin as [i Hi]. eauto.
  - intros (i & t & Hi). exists (taskID, t). split.
    + apply list_elem_of_In, list_elem_of_lookup. eauto.
    + simpl. apply String.eqb_refl.
Qed.

Lemma targets_bound_lookup :
  targets_bound registry objects = true ->
  forall o n, o ∈ objects -> n ∈ targets_of o ->
              exists i task, registry !! i = Some (n, task).
Proof.
  unfold targets_bound. intros Hb o n Ho Hn.
  apply forallb_Forall_eq in Hb. rewrite Forall_forall in Hb.
  specialize (Hb o Ho). apply forallb_Forall_eq in Hb. rewrite Forall_forall in Hb.
  by apply is_bound_lookup, Hb.
Qed.

Lemma pointers_valid_lookup :
  pointers_valid registry objects = true ->
  (forall i n task, registry !! i = Some (n, task) -> is_Some (objects !! task))
  /\ (forall o task, o ∈ objects -> task ∈ subtasks_of o -> is_Some (objects !! task)).
Proof.
  unfold pointers_valid. intros [Hr Ho]%andb_true_iff.
  apply forallb_Forall_eq in Hr. apply forallb_Forall_eq in Ho.
  rewrite Forall_forall in Hr. rewrite Forall_forall in Ho. split.
  - intros i n task Hi. apply lookup_lt_is_Some.
    assert ((n, task) ∈ registry) as Hin by (apply list_elem_of_lookup; eauto).
    specialize (Hr _ Hin). simpl in Hr. by apply Nat.ltb_lt in Hr.
  - intros o task Hin Hsub. apply lookup_lt_is_Some.
    specialize (Ho o Hin). apply forallb_Forall_eq in Ho. rewrite Forall_forall in Ho.
    specialize (Ho task Hsub). by apply Nat.ltb_lt in Ho.
Qed.

Lemma bound_once_to_lookup (o : TaskObject) (taskID : string) :
  bound_once_to o taskID registry objects = true ->
  exists i task,
    slots_named taskID registry = [(i, task)]
    /\ registry !! i = Some (taskID, task)
    /\ objects !! task = Some o.
Proof.
  unfold bound_once_to. intros Hb.
  destruct (slots_named taskID registry) as [|[i t] [|? ?]] eqn:Hs; try done.
  apply bool_decide_eq_true in Hb. exists i, t. split; [done|]. split; [|done].
  apply slots_named_lookup. rewrite Hs. by left.
Qed.

Lemma registry_frame_shape (useLazyStrategy : bool) :
  registry_frame useLazyStrategy registry objects = true ->
  exists t0 middle tF tT subtasks,
    registry = ("InitMIPSolver", t0) :: middle
                 ++ [("FinalizeSolution", tF); ("Terminate", tT)]
    /\ objects !! t0 = Some (TaskInitializeDualSolver useLazyStrategy)
    /\ objects !! tF = Some (TaskSequential subtasks)
    /\ objects !! tT = Some TaskTerminate
    /\ length (slots_named "Terminate" registry) = 1%nat
    /\ length (slots_named "FinalizeSolution" registry) = 1%nat
    /\ length (slots_named "SolveIter" registry) = 1%nat.
Proof.
  unfold registry_frame. intros Hf.
  destruct registry as [|[first t0] tail]; [done|].
  destruct (rev ((first, t0) :: tail)) as [|[last tT] [|[before tF] front]] eqn:Hrev;
    try done.
  apply (f_equal (@rev _)) in Hrev. rewrite rev_involutive in Hrev. simpl in Hrev.
  rewrite <- app_assoc in Hrev. simpl in Hrev.
  repeat (apply andb_true_iff in Hf as [Hf ?]).
  repeat match goal with
         | H : String.eqb _ _ = true |- _ => apply String.eqb_eq in H
         | H : bool_decide _ = true |- _ => apply bool_decide_eq_true in H
         | H : (_ =? _)%nat = true |- _ => apply Nat.eqb_eq in H
         end.
  subst first before last.
  destruct (objects !! tF) as [o|] eqn:HtF; [|done].
  destruct o as [subtasks| | | | | | | | | | | | | | | | | | | | | | | | | | | | | | | | | |];
    try done.
  destruct (rev front) as [|b middle] eqn:Hfront; [done|].
  simpl in Hrev. injection Hrev as <- ->.
  by exists t0, middle, tF, tT, subtasks.
Qed.

Lemma slots_named_length_lookup (taskID : string) :
  (1 < length (slots_named taskID registry))%nat -> taskID ∈ map fst registry.
Proof.
  intros Hlen. destruct (slots_named taskID registry) as [|[i t] rest] eqn:Hs;
    [simpl in Hlen; lia|].
  assert ((i, t) ∈ slots_named taskID registry) as Hin by (rewrite Hs; left).
  apply slots_named_lookup in Hin. apply list_elem_of_fmap. exists (taskID, t).
  split; [done|]. apply list_elem_of_lookup. eauto.
Qed.

Lemma one_task_per_name (names : list string) :
  duplicated_names registry = names ->
  forallb (fun n => bound_to_one_task n registry) names = true ->
  forall n i j task task',
    registry !! i = Some (n, task) -> registry !! j = Some (n, task') -> task = task'.
Proof.
  intros Hdup Hall n i j task task' Hi Hj.
  apply slots_named_lookup in Hi, Hj.
  assert (bound_to_one_task n registry = true) as Hone.
  { destruct (decide (1 < length (slots_named n registry))%nat) as [Hlen | Hlen].
    - apply forallb_Forall_eq in Hall. rewrite Forall_forall in Hall. apply Hall.
      rewrite <- Hdup. unfold duplicated_names.
      apply elem_of_remove_dups, list_elem_of_filter. split; [done|].
      by apply slots_named_length_lookup.
    - unfold bound_to_one_task.
      destruct (slots_named n registry) as [|[? ?] [|? ?]]; simpl in *; try done; lia. }
  unfold bound_to_one_task in Hone.
  destruct (slots_named n registry) as [|[k t] rest]; [by apply elem_of_nil in Hi|].
  apply forallb_Forall_eq in Hone. rewrite Forall_forall in Hone.
  assert (forall q u, (q, u) ∈ (k, t) :: rest -> u = t) as Hsame.
  { intros q u [Heq | Hin]%elem_of_cons; [by simplify_eq|].
    specialize (Hone _ Hin). simpl in Hone. by apply Nat.eqb_eq in Hone. }
  by rewrite (Hsame _ _ Hi), (Hsame _ _ Hj).
Qed.

End CheckMeaning.

Lemma SingleTree_built_checked `{Enums} (s : Settings) (p : ProblemProperties) :
  SingleTree_check s p (built_registry (SolutionStrategySingleTree_new s p))
                       (built_heap (SolutionStrategySingleTree_new s p)) = true.
Proof.
  exact (eq_trans
           (eq_sym (checked_built (SingleTree_check s p)
                                  (SolutionStrategySingleTree_new s p)))
           (SingleTree_checked s p)).
Qed.

Lemma NLP_built_checked `{Enums} (s : Settings) (p : ProblemProperties) :
  NLP_check s p (built_registry (SolutionStrategyNLP_new s p))
                (built_heap (SolutionStrategyNLP_new s p)) = true.
Proof.
  exact (eq_trans
           (eq_sym (checked_built (NLP_check s p) (SolutionStrategyNLP_new s p)))
           (NLP_checked s p)).
Qed.

Ltac split_checks H :=
  unfold SingleTree_check, NLP_check in H;
  repeat (let H' := fresh "Hcheck" in apply andb_true_iff in H as [H H']);
  repeat match goal with
         | H : bool_decide _ = true |- _ => apply bool_decide_eq_true in H
         end.

Lemma duplicated_names_slots (registry : list (string * TaskPtr)) (n : string) :
  n ∈ duplicated_names registry <-> (1 < length (slots_named n registry))%nat.
Proof.
  unfold duplicated_names. rewrite elem_of_remove_dups, list_elem_of_filter.
  split; [by intros [? _]|]. intros Hlen. split; [done|].
  by apply slots_named_length_lookup.
Qed.

Lemma bound_once_iff_is_bound (c : bool) (o : TaskObject) (taskID : string)
    (registry : list (string * TaskPtr)) (objects : list TaskObject) :
  bound_once_iff c o taskID registry objects = true ->
  is_bound taskID registry = c.
Proof.
  intros [Hyes Hno]%bound_once_iff_spec. destruct c.
  - destruct (Hyes eq_refl) as (i & task & _ & Hi & _).
    apply is_bound_lookup. eauto.
  - destruct (Hno eq_refl) as [_ Hnone].
    apply not_true_is_false. intros (i & task & Hi)%is_bound_lookup.
    by apply (Hnone i task).
Qed.

Lemma one_task_per_checked_name (registry : list (string * TaskPtr))
    (names checked_names : list string) :
  duplicated_names registry = names ->
  (forall n, n ∈ names -> n ∈ checked_names) ->
  forallb (fun n => bound_to_one_task n registry) checked_names = true ->
  forall n i j task task',
    registry !! i = Some (n, task) -> registry !! j = Some (n, task') -> task = task'.
Proof.
  intros Hdup Hincl Hall. apply (one_task_per_name registry names Hdup).
  apply forallb_Forall_eq in Hall. rewrite Forall_forall in Hall.
  apply forallb_Forall_eq, Forall_forall. intros n Hn. by apply Hall, Hincl.
Qed.

Section CheckedStrategies.
Context `{Enums} (s : Settings) (p : ProblemProperties).
Variable registry : list (string * TaskPtr).
Variable objects : list TaskObject.

Lemma checked_targets_bound :
  SingleTree_check s p registry objects = true
  \/ NLP_check s p registry objects = true ->
  forall o n, o ∈ objects -> n ∈ targets_of o ->
              exists i task, registry !! i = Some (n, task).
Proof. intros [Hc | Hc]; split_checks Hc; by apply targets_bound_lookup. Qed.

Lemma checked_pointers_valid :
  SingleTree_check s p registry objects = true
  \/ NLP_check s p registry objects = true ->
  (forall i n task, registry !! i = Some (n, task) -> is_Some (objects !! task))
  /\ (forall o task, o ∈ objects -> task ∈ subtasks_of o ->
                     is_Some (objects !! task)).
Proof. intros [Hc | Hc]; split_checks Hc; by apply pointers_valid_lookup. Qed.

Lemma checked_frame (useLazyStrategy : bool) :
  (SingleTree_check s p registry objects = true /\ useLazyStrategy = true)
  \/ (NLP_check s p registry objects = true /\ useLazyStrategy = false) ->
  exists t0 middle tF tT subtasks,
    registry
    = ("InitMIPSolver", t0) :: middle ++ [("FinalizeSolution", tF); ("Terminate", tT)]
    /\ objects !! t0 = Some (TaskInitializeDualSolver useLazyStrategy)
    /\ objects !! tF = Some (TaskSequential subtasks)
    /\ objects !! tT = Some TaskTerminate
    /\ length (slots_named "Terminate" registry) = 1%nat
    /\ length (slots_named "FinalizeSolution" registry) = 1%nat
    /\ length (slots_named "SolveIter" registry) = 1%nat.
Proof.
  intros [[Hc ->] | [Hc ->]]; split_checks Hc; by apply registry_frame_shape.
Qed.

Lemma checked_one_task_per_name :
  SingleTree_check s p registry objects = true
  \/ NLP_check s p registry objects = true ->
  (forall n i j task task',
      registry !! i = Some (n, task) -> registry !! j = Some (n, task') ->
      task = task')
  /\ exists i j task,
       slots_named "InitIter" registry = [(i, task)]
       /\ map snd (slots_named "InitIter2" registry) = [task]
       /\ registry !! j = Some ("InitIter2", task)
       /\ objects !! task = Some TaskInitializeIteration.
Proof.
  intros [Hc | Hc]; split_checks Hc.
  all: split;
    [ match goal with
      | Hd : duplicated_names _ = _, Ha : forallb _ _ = true |- _ =>
          eapply (one_task_per_checked_name _ _ _ Hd); [|exact Ha];
          intros n; try destruct (_ && _); set_solver
      end
    | match goal with
      | Hb : bound_once_to TaskInitializeIteration _ _ _ = true,
        Hm : map snd (slots_named "InitIter2" _) = _ |- _ =>
          apply bound_once_to_lookup in Hb as (i & task & Hs & Hi & Ho);
          rewrite Hs in Hm; simpl in Hm;
          destruct (slots_named "InitIter2" registry) as [|[j t] [|? ?]] eqn:Hs2;
          try discriminate Hm; injection Hm as ->;
          exists i, j, task; repeat split; try assumption;
          apply slots_named_lookup; rewrite Hs2; left
      end ].
Qed.

Lemma checked_duplicated_names (names : list string) :
  duplicated_names registry = names ->
  forall n, (1 < length (slots_named n registry))%nat <-> n ∈ names.
Proof. intros <- n. by rewrite duplicated_names_slots. Qed.

Lemma checked_SingleTree_duplicated_names :
  SingleTree_check s p registry objects = true ->
  forall n, (1 < length (slots_named n registry))%nat
            <-> n ∈ (if getBoolSetting s "FixedInteger.Use" "Primal" && isDiscrete p
                     then ["CheckAbsGap"; "CheckRelGap"] else []) ++ ["AddHPs"].
Proof. intros Hc. split_checks Hc. by apply checked_duplicated_names. Qed.

Lemma checked_NLP_duplicated_names :
  NLP_check s p registry objects = true ->
  forall n, (1 < length (slots_named n registry))%nat <-> n ∈ ["AddHPs"].
Proof. intros Hc. split_checks Hc. by apply checked_duplicated_names. Qed.

Lemma checked_cut_strategy :
  SingleTree_check s p registry objects = true
  \/ NLP_check s p registry objects = true ->
  (exists i task,
      slots_named "SelectHPPts" registry = [(i, task)]
      /\ objects !! task
         = Some (if (getIntSetting s "CutStrategy" "Dual"
                     =? ES_HyperplaneCutStrategy_ESH)%Z
                 then TaskSelectHyperplanePointsESH
                 else TaskSelectHyperplanePointsECP))
  /\ (getIntSetting s "CutStrategy" "Dual" = ES_HyperplaneCutStrategy_ESH ->
      exists i task,
        slots_named "UpdateInteriorPoint" registry = [(i, task)]
        /\ objects !! task = Some TaskUpdateInteriorPoint)
  /\ (getIntSetting s "CutStrategy" "Dual" <> ES_HyperplaneCutStrategy_ESH ->
      forall i task, registry !! i <> Some ("UpdateInteriorPoint", task)).
Proof.
  intros [Hc | Hc]; split_checks Hc.
  all: match goal with
       | Hsel : bound_once_to _ "SelectHPPts" _ _ = true,
         Hupd : bound_once_iff _ _ "UpdateInteriorPoint" _ _ = true |- _ =>
           apply bound_once_to_lookup in Hsel as (i & task & Hs & _ & Ho);
           apply bound_once_iff_spec in Hupd as [Hyes Hno];
           split; [by exists i, task|]; split;
           [ intros He; apply Z.eqb_eq in He;
             destruct (Hyes He) as (i' & task' & ? & _ & ?); by exists i', task'
           | intros Hne; apply Z.eqb_neq in Hne; by destruct (Hno Hne) ]
       end.
Qed.

Lemma checked_SingleTree_finalize :
  SingleTree_check s p registry objects = true ->
  sequence_of "FinalizeSolution" registry objects
  = finalize_sequence
      (getBoolSetting s "Linesearch.Use" "Primal"
       && (0 <? numberOfNonlinearConstraints p)%Z)
      (getBoolSetting s "FixedInteger.Use" "Primal" && isDiscrete p)
      (is_bound "RepairInfeasibility" registry)
  /\ is_bound "RepairInfeasibility" registry
     = negb (getIntSetting s "Convexity" "Strategy"
             =? ES_ConvexityIdentificationStrategy_AssumeConvex)%Z.
Proof.
  intros Hc. split_checks Hc.
  match goal with
  | H : bound_once_iff _ _ "RepairInfeasibility" _ _ = true |- _ =>
      apply bound_once_iff_is_bound in H; rewrite H
  end.
  split; [assumption | reflexivity].
Qed.

Lemma checked_NLP_finalize :
  NLP_check s p registry objects = true ->
  sequence_of "FinalizeSolution" registry objects
  = finalize_sequence
      (getBoolSetting s "Linesearch.Use" "Primal"
       && (0 <? numberOfNonlinearConstraints p)%Z)
      false
      (is_bound "RepairInfeasibility" registry)
  /\ is_bound "RepairInfeasibility" registry
     = negb (getIntSetting s "Convexity" "Strategy"
             =? ES_ConvexityIdentificationStrategy_AssumeConvex)%Z
       && negb (problem_convexity p =? E_ProblemConvexity_Convex)%Z.
Proof.
  intros Hc. split_checks Hc.
  match goal with
  | H : bound_once_iff _ _ "RepairInfeasibility" _ _ = true |- _ =>
      apply bound_once_iff_is_bound in H; rewrite H
  end.
  split; [assumption | reflexivity].
Qed.

Lemma checked_NLP_absent :
  NLP_check s p registry objects = true ->
  (forall n i task,
      n ∈ ["ReformulateProb"; "ExecRelaxStrategyInitial"; "ExecRelaxStrategy";
           "CheckMaxObjectiveCuts"; "SelectPrimFixedNLPSolPool"; "SelectPrimNLPCheck";
           "AddICs"] ->
      registry !! i <> Some (n, task))
  /\ (exists i task, registry !! i = Some ("CheckUserTermination", task)).
Proof.
  intros Hc. split_checks Hc. split.
  - intros n i task Hn Hi.
    match goal with
    | H : forallb (fun n => negb (is_bound n _)) _ = true |- _ =>
        apply forallb_Forall_eq in H; rewrite Forall_forall in H;
        specialize (H n Hn); apply negb_true_iff in H;
        apply not_true_iff_false in H; apply H, is_bound_lookup; eauto
    end.
  - by apply is_bound_lookup.
Qed.

Lemma checked_SingleTree_present :
  SingleTree_check s p registry objects = true ->
  (forall i task, registry !! i <> Some ("CheckUserTermination", task))
  /\ (exists i task, registry !! i = Some ("ReformulateProb", task))
  /\ (exists i task, registry !! i = Some ("CheckMaxObjectiveCuts", task)).
Proof.
  intros Hc. split_checks Hc. split; [|split].
  - intros i task Hi.
    match goal with
    | H : negb (is_bound "CheckUserTermination" _) = true |- _ =>
        apply negb_true_iff in H; apply not_true_iff_false in H;
        apply H, is_bound_lookup; eauto
    end.
  - by apply is_bound_lookup.
  - by apply is_bound_lookup.
Qed.

End CheckedStrategies.

(** X13: in both strategies, every task name that is handed to the
    constructor of a task (the targets of the goto, conditional, termination
    check and repair tasks) is bound in the registry that the strategy's
    constructor leaves. *)
Theorem strategy_targets_are_bound `{Enums} (s : Settings) (p : ProblemProperties)
    (ctor : Build unit) :
  ctor = SolutionStrategySingleTree_new s p \/ ctor = SolutionStrategyNLP_new s p ->
  forall o n, o ∈ built_heap ctor -> n ∈ targets_of o ->
              exists i task, built_registry ctor !! i = Some (n, task).
Proof.
  intros [-> | ->].
  - exact (checked_targets_bound s p
             (built_registry (SolutionStrategySingleTree_new s p))
             (built_heap (SolutionStrategySingleTree_new s p))
             (or_introl (SingleTree_built_checked s p))).
  - exact (checked_targets_bound s p
             (built_registry (SolutionStrategyNLP_new s p))
             (built_heap (SolutionStrategyNLP_new s p))
             (or_intror (NLP_built_checked s p))).
Qed.

Lemma strategy_targets_are_bound_witness :
  (SolutionStrategyNLP_new (H := enums_in_order) settings_all_on discrete_problem
   = SolutionStrategySingleTree_new (H := enums_in_order) settings_all_on discrete_problem
   \/ SolutionStrategyNLP_new (H := enums_in_order) settings_all_on discrete_problem
      = SolutionStrategyNLP_new (H := enums_in_order) settings_all_on discrete_problem)
  /\ forall o n,
       o ∈ built_heap (SolutionStrategyNLP_new (H := enums_in_order) settings_all_on
                                               discrete_problem) ->
       n ∈ targets_of o ->
       exists i task,
         built_registry (SolutionStrategyNLP_new (H := enums_in_order) settings_all_on
                                                 discrete_problem) !! i
         = Some (n, task).
Proof.
  split; [right; reflexivity|].
  apply (strategy_targets_are_bound (H := enums_in_order) settings_all_on
           discrete_problem).
  right. reflexivity.
Defined.

(** X14: in both strategies, every task pointer in the registry and every
    sub-task of a sequential task is one of the task objects that the
    constructor has created. *)
Theorem strategy_pointers_are_valid `{Enums} (s : Settings) (p : ProblemProperties)
    (ctor : Build unit) :
  ctor = SolutionStrategySingleTree_new s p \/ ctor = SolutionStrategyNLP_new s p ->
  (forall i n task, built_registry ctor !! i = Some (n, task) ->
                    is_Some (built_heap ctor !! task))
  /\ (forall o task, o ∈ built_heap ctor -> task ∈ subtasks_of o ->
                     is_Some (built_heap ctor !! task)).
Proof.
  intros [-> | ->].
  - exact (checked_pointers_valid s p
             (built_registry (SolutionStrategySingleTree_new s p))
             (built_heap (SolutionStrategySingleTree_new s p))
             (or_introl (SingleTree_built_checked s p))).
  - exact (checked_pointers_valid s p
             (built_registry (SolutionStrategyNLP_new s p))
             (built_heap (SolutionStrategyNLP_new s p))
             (or_intror (NLP_built_checked s p))).
Qed.

Lemma strategy_pointers_are_valid_witness :
  (forall i n task,
      built_registry (SolutionStrategySingleTree_new (H := enums_in_order)
                        settings_all_on discrete_problem) !! i = Some (n, task) ->
      is_Some (built_heap (SolutionStrategySingleTree_new (H := enums_in_order)
                             settings_all_on discrete_problem) !! task))
  /\ (forall o task,
      o ∈ built_heap (SolutionStrategySingleTree_new (H := enums_in_order)
                        settings_all_on discrete_problem) ->
      task ∈ subtasks_of o ->
      is_Some (built_heap (SolutionStrategySingleTree_new (H := enums_in_order)
                             settings_all_on discrete_problem) !! task)).
Proof.
  apply (strategy_pointers_are_valid (H := enums_in_order) settings_all_on
           discrete_problem).
  left. reflexivity.
Defined.

(** X15: in both strategies the registry starts with InitMIPSolver, bound to
    the task that initialises the dual solver (lazily in the single-tree
    strategy, not lazily in the NLP strategy), and ends with FinalizeSolution,
    bound to a sequential task, followed by Terminate, bound to the
    termination task; Terminate, FinalizeSolution and SolveIter are bound
    exactly once. *)
Theorem strategy_registry_frame `{Enums} (s : Settings) (p : ProblemProperties)
    (ctor : Build unit) (useLazyStrategy : bool) :
  (ctor = SolutionStrategySingleTree_new s p /\ useLazyStrategy = true)
  \/ (ctor = SolutionStrategyNLP_new s p /\ useLazyStrategy = false) ->
  exists t0 middle tF tT subtasks,
    built_registry ctor
    = ("InitMIPSolver", t0) :: middle ++ [("FinalizeSolution", tF); ("Terminate", tT)]
    /\ built_heap ctor !! t0 = Some (TaskInitializeDualSolver useLazyStrategy)
    /\ built_heap ctor !! tF = Some (TaskSequential subtasks)
    /\ built_heap ctor !! tT = Some TaskTerminate
    /\ length (slots_named "Terminate" (built_registry ctor)) = 1%nat
    /\ length (slots_named "FinalizeSolution" (built_registry ctor)) = 1%nat
    /\ length (slots_named "SolveIter" (built_registry ctor)) = 1%nat.
Proof.
  intros [[-> ->] | [-> ->]].
  - exact (checked_frame s p
             (built_registry (SolutionStrategySingleTree_new s p))
             (built_heap (SolutionStrategySingleTree_new s p)) true
             (or_introl (conj (SingleTree_built_checked s p) eq_refl))).
  - exact (checked_frame s p
             (built_registry (SolutionStrategyNLP_new s p))
             (built_heap (SolutionStrategyNLP_new s p)) false
             (or_intror (conj (NLP_built_checked s p) eq_refl))).
Qed.

Lemma strategy_registry_frame_witness :
  exists t0 middle tF tT subtasks,
    built_registry (SolutionStrategyNLP_new (H := enums_in_order) settings_all_on
                                            discrete_problem)
    = ("InitMIPSolver", t0) :: middle ++ [("FinalizeSolution", tF); ("Terminate", tT)]
    /\ built_heap (SolutionStrategyNLP_new (H := enums_in_order) settings_all_on
                                           discrete_problem) !! t0
       = Some (TaskInitializeDualSolver false)
    /\ built_heap (SolutionStrategyNLP_new (H := enums_in_order) settings_all_on
                                           discrete_problem) !! tF
       = Some (TaskSequential subtasks)
    /\ built_heap (SolutionStrategyNLP_new (H := enums_in_order) settings_all_on
                                           discrete_problem) !! tT
       = Some TaskTerminate
    /\ length (slots_named "Terminate"
                 (built_registry (SolutionStrategyNLP_new (H := enums_in_order)
                                    settings_all_on discrete_problem))) = 1%nat
    /\ length (slots_named "FinalizeSolution"
                 (built_registry (SolutionStrategyNLP_new (H := enums_in_order)
                                    settings_all_on discrete_problem))) = 1%nat
    /\ length (slots_named "SolveIter"
                 (built_registry (SolutionStrategyNLP_new (H := enums_in_order)
                                    settings_all_on discrete_problem))) = 1%nat.
Proof.
  apply (strategy_registry_frame (H := enums_in_order) settings_all_on
           discrete_problem).
  right. split; reflexivity.
Defined.

(** X16: in both strategies a task name is never bound to two different
    tasks; InitIter and InitIter2 are bound to one and the same
    iteration-initialising task, InitIter exactly once. *)
Theorem strategy_one_task_per_name `{Enums} (s : Settings) (p : ProblemProperties)
    (ctor : Build unit) :
  ctor = SolutionStrategySingleTree_new s p \/ ctor = SolutionStrategyNLP_new s p ->
  (forall n i j task task',
      built_registry ctor !! i = Some (n, task) ->
      built_registry ctor !! j = Some (n, task') -> task = task')
  /\ exists i j task,
       slots_named "InitIter" (built_registry ctor) = [(i, task)]
       /\ map snd (slots_named "InitIter2" (built_registry ctor)) = [task]
       /\ built_registry ctor !! j = Some ("InitIter2", task)
       /\ built_heap ctor !! task = Some TaskInitializeIteration.
Proof.
  intros [-> | ->].
  - exact (checked_one_task_per_name s p
             (built_registry (SolutionStrategySingleTree_new s p))
             (built_heap (SolutionStrategySingleTree_new s p))
             (or_introl (SingleTree_built_checked s p))).
  - exact (checked_one_task_per_name s p
             (built_registry (SolutionStrategyNLP_new s p))
             (built_heap (SolutionStrategyNLP_new s p))
             (or_intror (NLP_built_checked s p))).
Qed.

Lemma strategy_one_task_per_name_witness :
  (forall n i j task task',
      built_registry (SolutionStrategySingleTree_new (H := enums_in_order)
                        settings_all_on discrete_problem) !! i = Some (n, task) ->
      built_registry (SolutionStrategySingleTree_new (H := enums_in_order)
                        settings_all_on discrete_problem) !! j = Some (n, task') ->
      task = task')
  /\ exists i j task,
       slots_named "InitIter"
         (built_registry (SolutionStrategySingleTree_new (H := enums_in_order)
                            settings_all_on discrete_problem)) = [(i, task)]
       /\ map snd (slots_named "InitIter2"
                     (built_registry (SolutionStrategySingleTree_new (H := enums_in_order)
                                        settings_all_on discrete_problem))) = [task]
       /\ built_registry (SolutionStrategySingleTree_new (H := enums_in_order)
                            settings_all_on discrete_problem) !! j
          = Some ("InitIter2", task)
       /\ built_heap (SolutionStrategySingleTree_new (H := enums_in_order)
                        settings_all_on discrete_problem) !! task
          = Some TaskInitializeIteration.
Proof.
  apply (strategy_one_task_per_name (H := enums_in_order) settings_all_on
           discrete_problem).
  left. reflexivity.
Defined.

(** X17: the names bound more than once are, in the single-tree strategy,
    AddHPs and, when the fixed-integer primal strategy is used on a discrete
    problem, CheckAbsGap and CheckRelGap; in the NLP strategy, AddHPs
    only. *)
Theorem strategy_duplicated_names `{Enums} (s : Settings) (p : ProblemProperties) :
  (forall n,
      (1 < length (slots_named n (built_registry (SolutionStrategySingleTree_new s p))))%nat
      <-> n ∈ (if getBoolSetting s "FixedInteger.Use" "Primal" && isDiscrete p
               then ["CheckAbsGap"; "CheckRelGap"] else []) ++ ["AddHPs"])
  /\ (forall n,
      (1 < length (slots_named n (built_registry (SolutionStrategyNLP_new s p))))%nat
      <-> n ∈ ["AddHPs"]).
Proof.
  split.
  - exact (checked_SingleTree_duplicated_names s p
             (built_registry (SolutionStrategySingleTree_new s p))
             (built_heap (SolutionStrategySingleTree_new s p))
             (SingleTree_built_checked s p)).
  - exact (checked_NLP_duplicated_names s p
             (built_registry (SolutionStrategyNLP_new s p))
             (built_heap (SolutionStrategyNLP_new s p))
             (NLP_built_checked s p)).
Qed.

(** X18: in both strategies SelectHPPts is bound exactly once, to the ESH point
    selection when the cut strategy is ESH and to the ECP point selection
    otherwise; UpdateInteriorPoint is bound exactly once when the cut strategy
    is ESH, whatever the number of nonlinear constraints, and not bound
    otherwise. *)
Theorem strategy_cut_strategy_tasks `{Enums} (s : Settings) (p : ProblemProperties)
    (ctor : Build unit) :
  ctor = SolutionStrategySingleTree_new s p \/ ctor = SolutionStrategyNLP_new s p ->
  (exists i task,
      slots_named "SelectHPPts" (built_registry ctor) = [(i, task)]
      /\ built_heap ctor !! task
         = Some (if (getIntSetting s "CutStrategy" "Dual"
                     =? ES_HyperplaneCutStrategy_ESH)%Z
                 then TaskSelectHyperplanePointsESH
                 else TaskSelectHyperplanePointsECP))
  /\ (getIntSetting s "CutStrategy" "Dual" = ES_HyperplaneCutStrategy_ESH ->
      exists i task,
        slots_named "UpdateInteriorPoint" (built_registry ctor) = [(i, task)]
        /\ built_heap ctor !! task = Some TaskUpdateInteriorPoint)
  /\ (getIntSetting s "CutStrategy" "Dual" <> ES_HyperplaneCutStrategy_ESH ->
      forall i task, built_registry ctor !! i <> Some ("UpdateInteriorPoint", task)).
Proof.
  intros [-> | ->].
  - exact (checked_cut_strategy s p
             (built_registry (SolutionStrategySingleTree_new s p))
             (built_heap (SolutionStrategySingleTree_new s p))
             (or_introl (SingleTree_built_checked s p))).
  - exact (checked_cut_strategy s p
             (built_registry (SolutionStrategyNLP_new s p))
             (built_heap (SolutionStrategyNLP_new s p))
             (or_intror (NLP_built_checked s p))).
Qed.

Lemma strategy_cut_strategy_tasks_witness :
  (exists i task,
      slots_named "SelectHPPts"
        (built_registry (SolutionStrategyNLP_new (H := enums_in_order) settings_all_on
                           discrete_problem)) = [(i, task)]
      /\ built_heap (SolutionStrategyNLP_new (H := enums_in_order) settings_all_on
                       discrete_problem) !! task
         = Some (if (getIntSetting settings_all_on "CutStrategy" "Dual"
                     =? ES_HyperplaneCutStrategy_ESH (Enums := enums_in_order))%Z
                 then TaskSelectHyperplanePointsESH
                 else TaskSelectHyperplanePointsECP))
  /\ (getIntSetting settings_all_on "CutStrategy" "Dual"
      = ES_HyperplaneCutStrategy_ESH (Enums := enums_in_order) ->
      exists i task,
        slots_named "UpdateInteriorPoint"
          (built_registry (SolutionStrategyNLP_new (H := enums_in_order) settings_all_on
                             discrete_problem)) = [(i, task)]
        /\ built_heap (SolutionStrategyNLP_new (H := enums_in_order) settings_all_on
                         discrete_problem) !! task
           = Some TaskUpdateInteriorPoint)
  /\ (getIntSetting settings_all_on "CutStrategy" "Dual"
      <> ES_HyperplaneCutStrategy_ESH (Enums := enums_in_order) ->
      forall i task,
        built_registry (SolutionStrategyNLP_new (H := enums_in_order) settings_all_on
                          discrete_problem) !! i
        <> Some ("UpdateInteriorPoint", task)).
Proof.
  apply (strategy_cut_strategy_tasks (H := enums_in_order) settings_all_on
           discrete_problem).
  right. reflexivity.
Defined.

(** X19: the sub-tasks of the sequential task bound to FinalizeSolution are,
    in order: the primal line search when it is used and there are nonlinear
    constraints, the fixed-integer point selection and NLP solve when they are
    used on a discrete problem (single-tree strategy only), and the primal
    reduction cut from InitIter2 to Terminate exactly when RepairInfeasibility
    is bound; RepairInfeasibility is bound exactly when convexity is not
    assumed and, in the NLP strategy, the problem is moreover not convex. *)
Theorem strategy_finalize_sequence `{Enums} (s : Settings) (p : ProblemProperties) :
  (sequence_of "FinalizeSolution"
     (built_registry (SolutionStrategySingleTree_new s p))
     (built_heap (SolutionStrategySingleTree_new s p))
   = finalize_sequence
       (getBoolSetting s "Linesearch.Use" "Primal"
        && (0 <? numberOfNonlinearConstraints p)%Z)
       (getBoolSetting s "FixedInteger.Use" "Primal" && isDiscrete p)
       (is_bound "RepairInfeasibility"
          (built_registry (SolutionStrategySingleTree_new s p)))
   /\ is_bound "RepairInfeasibility"
        (built_registry (SolutionStrategySingleTree_new s p))
      = negb (getIntSetting s "Convexity" "Strategy"
              =? ES_ConvexityIdentificationStrategy_AssumeConvex)%Z)
  /\ (sequence_of "FinalizeSolution"
        (built_registry (SolutionStrategyNLP_new s p))
        (built_heap (SolutionStrategyNLP_new s p))
      = finalize_sequence
          (getBoolSetting s "Linesearch.Use" "Primal"
           && (0 <? numberOfNonlinearConstraints p)%Z)
          false
          (is_bound "RepairInfeasibility" (built_registry (SolutionStrategyNLP_new s p)))
      /\ is_bound "RepairInfeasibility" (built_registry (SolutionStrategyNLP_new s p))
         = negb (getIntSetting s "Convexity" "Strategy"
                 =? ES_ConvexityIdentificationStrategy_AssumeConvex)%Z
           && negb (problem_convexity p =? E_ProblemConvexity_Convex)%Z).
Proof.
  split.
  - exact (checked_SingleTree_finalize s p
             (built_registry (SolutionStrategySingleTree_new s p))
             (built_heap (SolutionStrategySingleTree_new s p))
             (SingleTree_built_checked s p)).
  - exact (checked_NLP_finalize s p
             (built_registry (SolutionStrategyNLP_new s p))
             (built_heap (SolutionStrategyNLP_new s p))
             (NLP_built_checked s p)).
Qed.

(** X20: the NLP strategy binds none of ReformulateProb,
    ExecRelaxStrategyInitial, ExecRelaxStrategy, CheckMaxObjectiveCuts,
    SelectPrimFixedNLPSolPool, SelectPrimNLPCheck and AddICs, and binds
    CheckUserTermination; the single-tree strategy does not bind
    CheckUserTermination and always binds ReformulateProb and
    CheckMaxObjectiveCuts. *)
Theorem strategy_exclusive_tasks `{Enums} (s : Settings) (p : ProblemProperties) :
  ((forall n i task,
       n ∈ ["ReformulateProb"; "ExecRelaxStrategyInitial"; "ExecRelaxStrategy";
            "CheckMaxObjectiveCuts"; "SelectPrimFixedNLPSolPool"; "SelectPrimNLPCheck";
            "AddICs"] ->
       built_registry (SolutionStrategyNLP_new s p) !! i <> Some (n, task))
   /\ (exists i task,
       built_registry (SolutionStrategyNLP_new s p) !! i
       = Some ("CheckUserTermination", task)))
  /\ ((forall i task,
       built_registry (SolutionStrategySingleTree_new s p) !! i
       <> Some ("CheckUserTermination", task))
      /\ (exists i task,
          built_registry (SolutionStrategySingleTree_new s p) !! i
          = Some ("ReformulateProb", task))
      /\ (exists i task,
          built_registry (SolutionStrategySingleTree_new s p) !! i
          = Some ("CheckMaxObjectiveCuts", task))).
Proof.
  split.
  - exact (checked_NLP_absent s p
             (built_registry (SolutionStrategyNLP_new s p))
             (built_heap (SolutionStrategyNLP_new s p))
             (NLP_built_checked s p)).
  - exact (checked_SingleTree_present s p
             (built_registry (SolutionStrategySingleTree_new s p))
             (built_heap (SolutionStrategySingleTree_new s p))
             (SingleTree_built_checked s p)).
Qed.

(** ** Terms added behind the caches, and the value of a collection *)

Lemma calculate_push_back {T} `{Term T} (t : T) (s : Terms T) (point : VectorDouble) :
  Terms_calculate (push_back t s) point
  = PrimFloat.add (Terms_calculate s point) (calculate t point).
Proof. unfold Terms_calculate, push_back. simpl. by rewrite fold_left_app. Qed.

(** X21: [push_back], which the collections inherit publicly from the vector,
    appends a term without touching the caches: on a collection whose caches
    are set, [getConvexity] and [getMonotonicity] after a [push_back] still
    answer what was cached before it, and compute nothing. *)
Theorem push_back_keeps_caches {T} `{Term T}
    (updateConvexity : Terms T -> World -> Terms T * World)
    (t : T) (s : Terms T) (w : World) :
  convexity s <> Convexity_NotSet ->
  monotonicity s <> Monotonicity_NotSet ->
  Terms_getConvexity updateConvexity (push_back t s) w = (convexity s, (push_back t s, w))
  /\ Terms_getMonotonicity (push_back t s) w = (monotonicity s, (push_back t s, w)).
Proof.
  intros Hc Hm. split.
  - by rewrite getConvexity_hit.
  - by rewrite getMonotonicity_hit.
Qed.

Lemma push_back_keeps_caches_witness :
  fst (Terms_getMonotonicity (push_back (mkLinearTerm (-3)%float x0) two_x_queried) [])
  = Monotonicity_Nondecreasing
  /\ monotonicity (Terms_updateMonotonicity (push_back (mkLinearTerm (-3)%float x0) two_x_queried))
     = Monotonicity_Unknown.
Proof.
  split; [|reflexivity].
  assert (convexity two_x_queried <> Convexity_NotSet) as Hc
    by (vm_compute; discriminate).
  assert (monotonicity two_x_queried <> Monotonicity_NotSet) as Hm
    by (vm_compute; discriminate).
  exact (f_equal fst
           (proj2 (push_back_keeps_caches LinearTerms_updateConvexity
                     (mkLinearTerm (-3)%float x0) two_x_queried [] Hc Hm))).
Defined.

(** X22: for each of the four collections, [calculate] after [add] of a term
    is [calculate] before it plus the value of the term, added last. *)
Theorem calculate_after_add `{LibM} (point : VectorDouble) :
  (forall (t : LinearTerm) (s : LinearTerms),
      Terms_calculate (LinearTerms_add t s) point
      = PrimFloat.add (Terms_calculate s point) (LinearTerm_calculate t point))
  /\ (forall (t : QuadraticTerm) (s : QuadraticTerms),
      Terms_calculate (QuadraticTerms_add t s) point
      = PrimFloat.add (Terms_calculate s point) (QuadraticTerm_calculate t point))
  /\ (forall (t : MonomialTerm) (s : MonomialTerms),
      Terms_calculate (MonomialTerms_add t s) point
      = PrimFloat.add (Terms_calculate s point) (MonomialTerm_calculate t point))
  /\ (forall (t : SignomialTerm) (s : SignomialTerms),
      Terms_calculate (SignomialTerms_add t s) point
      = PrimFloat.add (Terms_calculate s point) (SignomialTerm_calculate t point)).
Proof.
  repeat split; intros t s; exact (calculate_push_back t s point).
Qed.
